(** * CroweLM mobile client: molecule geometry and offline cache

    A shallow embedding of two subsystems of the mobile application:

    - the geometry part of the [MoleculeViewer] component
      ([parseMoleculeData] and the mesh construction of [onContextCreate]);
    - the [useOfflineCache] hook with its pending-operation queue
      ([queueOfflineOperation], [syncPendingOperations]).

    JavaScript numbers are IEEE 754 binary64 values; they are modelled by
    Rocq's primitive floats, which compute with the same rounding.  Where
    a property holds of the arithmetic without rounding only, the same
    code is also run on rational or real numbers.
    Millisecond timestamps are integers and are modelled by [Z].  Strings
    are sequences of code units below 256 (structure files are ASCII). *)

From Stdlib Require Import Reals Lra.
From Stdlib Require Import ZArith QArith Qcanon Floats Ascii String List Lia.
From stdpp Require Import base option list gmap strings pretty.
Import ListNotations.

Set Warnings "-inexact-float".
#[local] Open Scope string_scope.
#[local] Open Scope list_scope.

(** ** JavaScript strings *)

Module JS.

(** White space and line terminators below code unit 256: TAB, LF, VT, FF,
    CR, SP and NBSP.  These are the characters removed by [trim] and
    skipped by [parseFloat]. *)
Definition is_space (c : ascii) : bool :=
  let n := nat_of_ascii c in
  ((9 <=? n)%nat && (n <=? 13)%nat) || (n =? 32)%nat || (n =? 160)%nat.

Definition is_digit (c : ascii) : bool :=
  let n := nat_of_ascii c in (48 <=? n)%nat && (n <=? 57)%nat.

Definition digit_val (c : ascii) : Z := Z.of_nat (nat_of_ascii c) - 48.

Definition newline : ascii := ascii_of_nat 10.

Fixpoint trimStart (s : string) : string :=
  match s with
  | String c s' => if is_space c then trimStart s' else s
  | EmptyString => EmptyString
  end.

Fixpoint trimEnd (s : string) : string :=
  match s with
  | EmptyString => EmptyString
  | String c s' =>
      match trimEnd s' with
      | EmptyString => if is_space c then EmptyString else String c EmptyString
      | t => String c t
      end
  end.

(** [s.trim()] *)
Definition trim (s : string) : string := trimEnd (trimStart s).

(** [s.startsWith(p)] *)
Definition startsWith (p s : string) : bool := String.prefix p s.

(** [s.substring(a, b)]: the arguments are swapped when [a > b] and both
    are clamped to the length of [s]. *)
Definition substring (a b : nat) (s : string) : string :=
  String.substring (Nat.min a b) (Nat.max a b - Nat.min a b) s.

(** [s.split('\n')]: never empty, the empty string splits to one empty
    line. *)
Fixpoint split_lines (s : string) : list string :=
  match s with
  | EmptyString => [EmptyString]
  | String c s' =>
      if Ascii.eqb c newline then EmptyString :: split_lines s'
      else match split_lines s' with
           | l :: ls => String c l :: ls
           | [] => [String c EmptyString]
           end
  end.

(** A string is truthy when it is not empty. *)
Definition truthy_string (s : string) : bool :=
  match s with EmptyString => false | String _ _ => true end.

(** *** Numbers *)

(** The binary64 value nearest to the rational [n / d] (ties to even),
    computed by the reference division of [SpecFloat] on exact integer
    mantissas. *)
Definition of_ratio (neg : bool) (n d : Z) : float :=
  match n, d with
  | Zpos pn, Zpos pd =>
      SF2Prim (SFdiv FloatOps.prec FloatOps.emax (S754_finite neg pn 0) (S754_finite false pd 0))
  | _, _ => if neg then PrimFloat.neg_zero else PrimFloat.zero
  end.

(** The Number value of the decimal [m * 10 ^ e]. *)
Definition of_decimal (neg : bool) (m e : Z) : float :=
  if (0 <=? e)%Z then of_ratio neg (m * 10 ^ e) 1
  else of_ratio neg m (10 ^ (- e)).

(** The array length [n] as a Number (exact up to [2^53]). *)
Definition of_nat (n : nat) : float :=
  of_ratio false (Z.of_nat n) 1.

(** Reads a maximal run of decimal digits: the value accumulated so far,
    the number of digits read and the rest of the input. *)
Fixpoint read_digits (acc : Z) (n : nat) (s : string) : Z * nat * string :=
  match s with
  | String c s' =>
      if is_digit c then read_digits (acc * 10 + digit_val c)%Z (S n) s'
      else (acc, n, s)
  | EmptyString => (acc, n, s)
  end.

(** The exponent part [e[+-]digits] at the head of [s]; an incomplete
    exponent is not part of the literal and counts as zero. *)
Definition exponent_part (s : string) : Z :=
  match s with
  | String c r =>
      if Ascii.eqb c "e" || Ascii.eqb c "E" then
        let '(eneg, r') :=
          match r with
          | String "-" r' => (true, r')
          | String "+" r' => (false, r')
          | _ => (false, r)
          end in
        let '(v, n, _) := read_digits 0 0 r' in
        if (n =? 0)%nat then 0%Z else if eneg then (- v)%Z else v
      else 0%Z
  | EmptyString => 0%Z
  end.

(** [parseFloat(s)]: skips leading white space, reads the longest prefix
    that is a decimal literal ([Infinity], digits with an optional
    fraction and exponent, optionally signed) and rounds its value to the
    nearest Number; [NaN] when there is no such prefix. *)
Definition parseFloat (input : string) : float :=
  let t := trimStart input in
  let '(neg, u) :=
    match t with
    | String "-" r => (true, r)
    | String "+" r => (false, r)
    | _ => (false, t)
    end in
  if String.prefix "Infinity" u then (if neg then PrimFloat.neg_infinity else PrimFloat.infinity)
  else
    let '(ip, ni, r1) := read_digits 0 0 u in
    let '(m, nf, r2) :=
      match r1 with
      | String "." r => read_digits ip 0 r
      | _ => (ip, 0%nat, r1)
      end in
    if (ni + nf =? 0)%nat then PrimFloat.nan
    else of_decimal neg m (exponent_part r2 - Z.of_nat nf).

(** *** Property values *)

(** The values a property read on the colour and radius tables can give:
    a number of the table, an object inherited from [Object.prototype],
    or [undefined]. *)
Inductive value : Type :=
| Num (f : float)
| Obj (name : string)
| Undefined.

Definition truthy (v : value) : bool :=
  match v with
  | Num f => negb (PrimFloat.eqb f 0 || PrimFloat.is_nan f)
  | Obj _ => true
  | Undefined => false
  end.

(** [a || b] *)
Definition or_else (a b : value) : value := if truthy a then a else b.

(** [ToNumber]: inherited functions and objects, and [undefined], give
    [NaN]. *)
Definition to_number (v : value) : float :=
  match v with
  | Num f => f
  | Obj _ | Undefined => PrimFloat.nan
  end.

(** The property names every object literal inherits from
    [Object.prototype]. *)
Definition Object_prototype : list string :=
  [ "constructor"; "hasOwnProperty"; "isPrototypeOf"; "propertyIsEnumerable";
    "toLocaleString"; "toString"; "valueOf"; "__proto__";
    "__defineGetter__"; "__defineSetter__"; "__lookupGetter__";
    "__lookupSetter__" ].

Fixpoint own (table : list (string * float)) (k : string) : option float :=
  match table with
  | [] => None
  | (k', v) :: rest => if String.eqb k' k then Some v else own rest k
  end.

(** [table[k]] on an object literal of numbers. *)
Definition get (table : list (string * float)) (k : string) : value :=
  match own table k with
  | Some v => Num v
  | None =>
      if existsb (String.eqb k) Object_prototype then Obj k else Undefined
  end.

End JS.

(** ** The molecule viewer (src/unnamed/part_001) *)

Module Molecule.

#[local] Open Scope float_scope.

(** [ATOM_COLORS] and [ATOM_RADII] *)
Definition ATOM_COLORS : list (string * float) :=
  [ ("C", 0x909090); ("N", 0x3050f8); ("O", 0xff0d0d); ("H", 0xffffff);
    ("S", 0xffff30); ("P", 0xff8000); ("F", 0x90e050); ("Cl", 0x1ff01f);
    ("Br", 0xa62929); ("I", 0x940094); ("default", 0xff69b4) ].

Definition ATOM_RADII : list (string * float) :=
  [ ("C", 0.77); ("N", 0.75); ("O", 0.73); ("H", 0.37); ("S", 1.02);
    ("P", 1.06); ("default", 0.8) ].

Record Atom : Type := mkAtom
  { element : string; x : float; y : float; z : float }.

Record Bond : Type := mkBond
  { atom1 : nat; atom2 : nat; order : nat }.

Inductive Style : Type := ball_stick | space_fill | wireframe.

(** The properties of [MoleculeViewer] that reach the geometry. *)
Record MoleculeViewerProps : Type := mkProps
  { inputAtoms : option (list Atom);
    inputBonds : option (list Bond);
    smiles : option string;
    pdbData : option string;
    style : option Style }.

Record Molecule : Type := mkMolecule
  { atoms : list Atom; bonds : list Bond }.

(** [for (let i = lo; i < hi; i++) body], threading the loop state. *)
Definition for_range {S : Type} (lo hi : nat) (body : nat -> S -> S) (s : S) : S :=
  fold_left (fun acc i => body i acc) (seq lo (hi - lo)) s.

(** [for (const a of l) body] *)
Definition for_of {A S : Type} (l : list A) (body : A -> S -> S) (s : S) : S :=
  fold_left (fun acc a => body a acc) l s.

(** [bonds.push(b)] *)
Definition push {A : Type} (l : list A) (a : A) : list A := l ++ [a].

Definition distance (a b : Atom) : float :=
  let dx := x a - x b in
  let dy := y a - y b in
  let dz := z a - z b in
  sqrt (dx * dx + dy * dy + dz * dz).

(** The distance pass (bond inference): the same double loop follows both
    the branch that takes the atoms from the caller and the branch that
    parses them.  The indices [i] and [j] stay below the length, so both
    reads succeed. *)
Definition generate_bonds (atoms : list Atom) : list Bond :=
  for_range 0 (length atoms) (fun i bonds =>
    for_range (i + 1) (length atoms) (fun j bonds =>
      match atoms !! i, atoms !! j with
      | Some ai, Some aj =>
          if distance ai aj <? 1.9 then push bonds (mkBond i j 1) else bonds
      | _, _ => bonds
      end) bonds) [].

Definition is_record (line : string) : bool :=
  JS.startsWith "ATOM" line || JS.startsWith "HETATM" line.

Definition parse_record (line : string) : Atom :=
  let element :=
    let e := JS.trim (JS.substring 76 78 line) in
    if JS.truthy_string e then e else JS.trim (JS.substring 12 14 line) in
  let x := JS.parseFloat (JS.substring 30 38 line) in
  let y := JS.parseFloat (JS.substring 38 46 line) in
  let z := JS.parseFloat (JS.substring 46 54 line) in
  mkAtom element x y z.

Definition parse_pdb (pdbData : string) : list Atom :=
  for_of (JS.split_lines pdbData) (fun line parsedAtoms =>
    if is_record line then push parsedAtoms (parse_record line)
    else parsedAtoms) [].

Definition demoAtoms : list Atom :=
  [ mkAtom "C" 0 0 0;
    mkAtom "C" 1.4 0 0;
    mkAtom "N" 2.1 1.2 0;
    mkAtom "C" 1.4 2.4 0;
    mkAtom "C" 0 2.4 0;
    mkAtom "N" (-0.7) 1.2 0;
    mkAtom "O" 2.1 (-1.2) 0;
    mkAtom "N" (-0.7) 3.6 0;
    mkAtom "C" 0 4.8 0;
    mkAtom "N" 1.4 4.8 0;
    mkAtom "C" 2.1 3.6 0;
    mkAtom "O" 3.3 3.6 0 ].

Definition demoBonds : list Bond :=
  [ mkBond 0 1 1;
    mkBond 1 2 1;
    mkBond 2 3 1;
    mkBond 3 4 2;
    mkBond 4 5 1;
    mkBond 5 0 2;
    mkBond 1 6 2;
    mkBond 4 7 1;
    mkBond 7 8 1;
    mkBond 8 9 2;
    mkBond 9 10 1;
    mkBond 10 3 1;
    mkBond 10 11 2 ].

(** [parseMoleculeData(atoms, pdbData)]: an array is truthy even when it
    is empty, a string only when it is not empty. *)
Definition parseMoleculeData
  (atoms : option (list Atom)) (pdbData : option string) : Molecule :=
  match atoms with
  | Some atoms => mkMolecule atoms (generate_bonds atoms)
  | None =>
      match pdbData with
      | Some (String _ _ as pdbData) =>
          let parsedAtoms := parse_pdb pdbData in
          mkMolecule parsedAtoms (generate_bonds parsedAtoms)
      | _ => mkMolecule demoAtoms demoBonds
      end
  end.

(** *** Centring

    The centre of the positions and the shift by it, written once over the
    arithmetic: [onContextCreate] runs it on Numbers. *)

Section Centring.

Context {F : Type}.
Variable zero : F.
Variables add sub div : F -> F -> F.
Variable of_length : nat -> F.

Definition centre (ps : list (F * F * F)) : F * F * F :=
  let '(cx, cy, cz) :=
    for_of ps (fun '(px, py, pz) '(cx, cy, cz) =>
      (add cx px, add cy py, add cz pz)) (zero, zero, zero) in
  let n := of_length (length ps) in
  (div cx n, div cy n, div cz n).

Definition shift (c p : F * F * F) : F * F * F :=
  let '(cx, cy, cz) := c in
  let '(px, py, pz) := p in
  (sub px cx, sub py cy, sub pz cz).

Definition centred (ps : list (F * F * F)) : list (F * F * F) :=
  map (shift (centre ps)) ps.

End Centring.

Definition position (a : Atom) : float * float * float := (x a, y a, z a).

(** *** The distance pass over the arithmetic

    The double loop of the distance pass, written once over the arithmetic
    it uses: [parseMoleculeData] runs it on Numbers, with the threshold
    the Number [1.9]. *)

Section DistancePass.

Context {F : Type}.
Variables sub mul add : F -> F -> F.
Variable sqrt : F -> F.
Variable ltb : F -> F -> bool.
Variable threshold : F.

Definition distance_over (p q : F * F * F) : F :=
  let '(px, py, pz) := p in
  let '(qx, qy, qz) := q in
  let dx := sub px qx in
  let dy := sub py qy in
  let dz := sub pz qz in
  sqrt (add (add (mul dx dx) (mul dy dy)) (mul dz dz)).

Definition generate_bonds_over (ps : list (F * F * F)) : list Bond :=
  for_range 0 (length ps) (fun i bonds =>
    for_range (i + 1) (length ps) (fun j bonds =>
      match ps !! i, ps !! j with
      | Some p, Some q =>
          if ltb (distance_over p q) threshold
          then push bonds (mkBond i j 1) else bonds
      | _, _ => bonds
      end) bonds) [].

End DistancePass.

Definition float_centre : list (float * float * float) -> float * float * float :=
  centre 0 PrimFloat.add PrimFloat.div JS.of_nat.

Definition float_shift : float * float * float -> float * float * float -> float * float * float :=
  shift PrimFloat.sub.

(** *** The scene *)

(** What is added to [moleculeGroup]: a sphere per atom (radius, colour,
    position) and a cylinder per bond (its two end points). *)
Inductive Mesh : Type :=
| Sphere (radius : float) (color : JS.value) (at_ : float * float * float)
| Cylinder (from to : float * float * float).

(** The result of [onContextCreate]: the group handed to the scene
    ([onLoad]), or the exception passed to [onError]. *)
Inductive Outcome : Type :=
| Loaded (group : list Mesh)
| Failed (error : string).

Definition multiplier (style : Style) : float :=
  match style with
  | space_fill => 1.5
  | _ => 0.4
  end.

Definition atom_color (element : string) : JS.value :=
  JS.or_else (JS.get ATOM_COLORS element) (JS.get ATOM_COLORS "default").

Definition atom_radius (element : string) (style : Style) : float :=
  JS.to_number (JS.or_else (JS.get ATOM_RADII element) (JS.get ATOM_RADII "default"))
  * multiplier style.

Definition create_atoms (style : Style) (c : float * float * float)
  (atoms : list Atom) (group : list Mesh) : list Mesh :=
  for_of atoms (fun atom group =>
    push group (Sphere (atom_radius (element atom) style)
                       (atom_color (element atom))
                       (float_shift c (position atom)))) group.

(** The bond loop stops with a [TypeError] at the first bond whose index
    has no atom. *)
Definition create_bonds (c : float * float * float) (atoms : list Atom)
  (bonds : list Bond) (group : list Mesh) : Outcome :=
  for_of bonds (fun bond acc =>
    match acc with
    | Failed e => Failed e
    | Loaded group =>
        match atoms !! atom1 bond, atoms !! atom2 bond with
        | Some a1, Some a2 =>
            Loaded (push group (Cylinder (float_shift c (position a1))
                                         (float_shift c (position a2))))
        | _, _ => Failed "TypeError"
        end
    end) (Loaded group).

(** The geometry of [onContextCreate]: the style defaults to ball-stick;
    [inputBonds] and [smiles] are received and not read. *)
Definition onContextCreate (props : MoleculeViewerProps) : Outcome :=
  let style := default ball_stick (style props) in
  let m := parseMoleculeData (inputAtoms props) (pdbData props) in
  let c := float_centre (map position (atoms m)) in
  let group := create_atoms style c (atoms m) [] in
  match style with
  | space_fill => Loaded group
  | _ => create_bonds c (atoms m) (bonds m) group
  end.

End Molecule.

(** ** The offline cache (src/mobile/hooks/useOfflineCache.ts) *)

Module OfflineCache.

#[local] Open Scope Z_scope.

Definition CACHE_PREFIX : string := "offline_cache_".
Definition PENDING_SYNC_KEY : string := "pending_sync_operations".
Definition DEFAULT_TTL : Z := 5 * 60 * 1000.

Inductive Error : Type :=
| StorageError
| FetchError (message : string).

Inductive Method : Type := POST | PUT | DELETE.

(** [Omit<PendingSyncOperation, 'id' | 'timestamp'>] and the queued
    operation itself; the payload is kept as its JSON text. *)
Record Operation : Type := mkOperation
  { type : Method; endpoint : string; data : string }.

Record PendingSyncOperation : Type := mkPending
  { id : string; operation : Operation; queued_at : Z }.

(** What [fetch] gives for a replayed operation: a response with its [ok]
    flag (a 2xx status), or a thrown network error. *)
Inductive Reply : Type :=
| Response (ok : bool)
| NetworkFailure.

Record CacheOptions : Type := mkOptions
  { opt_ttl : option Z;
    opt_staleWhileRevalidate : option bool;
    opt_syncOnReconnect : option bool }.

Definition no_options : CacheOptions := mkOptions None None None.

Section Hook.

(** The type of the cached payload and its JavaScript truthiness. *)
Context {T : Type}.
Variable truthy : T -> bool.

Record CachedData : Type := mkCached
  { cached_data : T; timestamp : Z; cached_ttl : Z }.

(** The five state cells of the hook. *)
Record HookState : Type := mkState
  { st_data : option T;
    isLoading : bool;
    isStale : bool;
    isOffline : bool;
    error : option Error }.

Definition initial_state : HookState := mkState None true false false None.

(** The state values a callback closed over when its render created it:
    [fetchAndCache] tests these, not the cells as the setters left them. *)
Record Render : Type := mkRender
  { seen_isOffline : bool; seen_data : option T }.

Definition render_of (s : HookState) : Render :=
  mkRender (isOffline s) (st_data s).

(** One call of the fetcher: how long it takes and how it settles. *)
Record Fetched : Type := mkFetched
  { elapsed : Z; settled : Error + T }.

(** The world a call runs in.  [AsyncStorage] holds JSON text; the model
    keeps the documents parsed: the cache entries under their keys and the
    pending queue under [PENDING_SYNC_KEY] (absent when [None]).  When
    [storage_up] is false every storage call rejects. *)
Record World : Type := mkWorld
  { entries : gmap string CachedData;
    pending : option (list PendingSyncOperation);
    storage_up : bool;
    clock : Z;
    fetcher_calls : nat;
    requests : list PendingSyncOperation;
    hook : HookState;
    isMounted : bool }.

(** The fetcher by the number of calls made before, and the backend by the
    number of requests sent before. *)
Variable fetcher : nat -> Fetched.
Variable backend : nat -> Reply.

(** *** Computations that change the world and may throw *)

Inductive Result (A : Type) : Type :=
| Returned (a : A)
| Thrown (e : Error).
#[global] Arguments Returned {A} a.
#[global] Arguments Thrown {A} e.

Definition M (A : Type) : Type := World -> Result A * World.

Definition ret {A : Type} (a : A) : M A := fun w => (Returned a, w).

Definition throw {A : Type} (e : Error) : M A := fun w => (Thrown e, w).

Definition bind {A B : Type} (m : M A) (k : A -> M B) : M B :=
  fun w =>
    match m w with
    | (Returned a, w') => k a w'
    | (Thrown e, w') => (Thrown e, w')
    end.

Notation "x <- m ;; k" := (bind m (fun x => k))
  (at level 100, m at next level, k at level 200, right associativity).
Notation "m ;; k" := (bind m (fun _ => k))
  (at level 100, k at level 200, right associativity).

(** [try { body } catch (e) { handler e }] *)
Definition try_catch {A : Type} (body : M A) (handler : Error -> M A) : M A :=
  fun w =>
    match body w with
    | (Returned a, w') => (Returned a, w')
    | (Thrown e, w') => handler e w'
    end.

(** [try { body } finally { last }] *)
Definition finally {A : Type} (body : M A) (last : M unit) : M A :=
  fun w =>
    let '(r, w') := body w in
    match last w' with
    | (Returned _, w'') => (r, w'')
    | (Thrown e, w'') => (Thrown e, w'')
    end.

Definition modify (f : World -> World) : M unit := fun w => (Returned tt, f w).

Definition set_hook (f : HookState -> HookState) : M unit :=
  modify (fun w =>
    mkWorld (entries w) (pending w) (storage_up w) (clock w)
            (fetcher_calls w) (requests w) (f (hook w)) (isMounted w)).

Definition setData (d : option T) : M unit :=
  set_hook (fun s => mkState d (isLoading s) (isStale s) (isOffline s) (error s)).
Definition setIsLoading (b : bool) : M unit :=
  set_hook (fun s => mkState (st_data s) b (isStale s) (isOffline s) (error s)).
Definition setIsStale (b : bool) : M unit :=
  set_hook (fun s => mkState (st_data s) (isLoading s) b (isOffline s) (error s)).
Definition setError (e : option Error) : M unit :=
  set_hook (fun s => mkState (st_data s) (isLoading s) (isStale s) (isOffline s) e).

(** [if (isMounted.current) { m }] *)
Definition when_mounted (m : M unit) : M unit :=
  fun w => if isMounted w then m w else (Returned tt, w).

(** [Date.now()] *)
Definition Date_now : M Z := fun w => (Returned (clock w), w).

(** [await fetcher()]: counts the call, lets its time pass, then returns
    the value or throws the error. *)
Definition call_fetcher : M T :=
  fun w =>
    let f := fetcher (fetcher_calls w) in
    let w' := mkWorld (entries w) (pending w) (storage_up w) (clock w + elapsed f)
                      (S (fetcher_calls w)) (requests w) (hook w) (isMounted w) in
    match settled f with
    | inr v => (Returned v, w')
    | inl e => (Thrown e, w')
    end.

(** [await fetch(operation.endpoint, ...)] *)
Definition fetch (op : PendingSyncOperation) : M bool :=
  fun w =>
    let w' := mkWorld (entries w) (pending w) (storage_up w) (clock w)
                      (fetcher_calls w) (requests w ++ [op]) (hook w) (isMounted w) in
    match backend (length (requests w)) with
    | Response ok => (Returned ok, w')
    | NetworkFailure => (Thrown (FetchError "Network request failed"), w')
    end.

(** [AsyncStorage] *)
Definition storage_call {A : Type} (f : World -> A * World) : M A :=
  fun w => if storage_up w then let '(a, w') := f w in (Returned a, w')
           else (Thrown StorageError, w).

Definition getItem (k : string) : M (option CachedData) :=
  storage_call (fun w => (entries w !! k, w)).

Definition setItem (k : string) (e : CachedData) : M unit :=
  storage_call (fun w =>
    (tt, mkWorld (<[k := e]> (entries w)) (pending w) (storage_up w) (clock w)
                 (fetcher_calls w) (requests w) (hook w) (isMounted w))).

Definition removeItem (k : string) : M unit :=
  storage_call (fun w =>
    (tt, mkWorld (delete k (entries w)) (pending w) (storage_up w) (clock w)
                 (fetcher_calls w) (requests w) (hook w) (isMounted w))).

Definition getPending : M (option (list PendingSyncOperation)) :=
  storage_call (fun w => (pending w, w)).

Definition setPending (p : list PendingSyncOperation) : M unit :=
  storage_call (fun w =>
    (tt, mkWorld (entries w) (Some p) (storage_up w) (clock w)
                 (fetcher_calls w) (requests w) (hook w) (isMounted w))).

Definition removePending : M unit :=
  storage_call (fun w =>
    (tt, mkWorld (entries w) None (storage_up w) (clock w)
                 (fetcher_calls w) (requests w) (hook w) (isMounted w))).

(** *** The hook *)

Variable key : string.
Variable options : CacheOptions.

Definition ttl : Z := default DEFAULT_TTL (opt_ttl options).
Definition staleWhileRevalidate : bool :=
  default true (opt_staleWhileRevalidate options).
Definition cacheKey : string := CACHE_PREFIX ++ key.

(** [isOffline && data] on the values the render saw *)
Definition offline_with_data (r : Render) : bool :=
  seen_isOffline r &&
  match seen_data r with Some d => truthy d | None => false end.

Definition fetchAndCache (r : Render) : M unit :=
  finally
    (try_catch
       (setIsLoading true ;;
        setError None ;;
        freshData <- call_fetcher ;;
        when_mounted
          (setData (Some freshData) ;;
           setIsStale false ;;
           setError None) ;;
        now <- Date_now ;;
        setItem cacheKey (mkCached freshData now ttl))
       (fun err =>
          if offline_with_data r then when_mounted (setIsStale true)
          else when_mounted (setError (Some err))))
    (when_mounted (setIsLoading false)).

Definition loadCachedData (r : Render) : M unit :=
  try_catch
    (cached <- getItem cacheKey ;;
     match cached with
     | Some parsedCache =>
         now <- Date_now ;;
         let isExpired := now - timestamp parsedCache >? cached_ttl parsedCache in
         if negb isExpired then
           when_mounted
             (setData (Some (cached_data parsedCache)) ;;
              setIsStale false ;;
              setIsLoading false)
         else
           (if staleWhileRevalidate then
              when_mounted
                (setData (Some (cached_data parsedCache)) ;;
                 setIsStale true)
            else ret tt) ;;
           fetchAndCache r
     | None => fetchAndCache r
     end)
    (fun err =>
       when_mounted (setError (Some err) ;; setIsLoading false)).

Definition refresh (r : Render) : M unit := fetchAndCache r.

Definition clearCache : M unit :=
  removeItem cacheKey ;;
  when_mounted (setData None ;; setIsStale false).

(** A read: the hook is mounted on fresh state cells and its mount effect
    runs [loadCachedData] as the first render created it. *)
Definition mount (w : World) : World :=
  mkWorld (entries w) (pending w) (storage_up w) (clock w)
          (fetcher_calls w) (requests w) initial_state true.

Definition read (w : World) : World :=
  snd (loadCachedData (render_of initial_state) (mount w)).

(** The effect that reads has [key] as its dependency.  When the key
    changes, React first runs the cleanup the effect returned, which clears
    [isMounted.current], and then the effect again: [loadCachedData] as the
    current render created it, under the new key.  Nothing sets
    [isMounted.current] again. *)
Definition effect_cleanup (w : World) : World :=
  mkWorld (entries w) (pending w) (storage_up w) (clock w)
          (fetcher_calls w) (requests w) (hook w) false.

Definition read_after_key_change (w : World) : World :=
  snd (loadCachedData (render_of (hook w)) (effect_cleanup w)).

(** *** The pending queue *)

(** [for (const x of l) { acc = body x acc }] with calls that may throw *)
Fixpoint for_of {A S : Type} (l : list A) (body : A -> S -> M S) (s : S) : M S :=
  match l with
  | [] => ret s
  | a :: l' => s' <- body a s ;; for_of l' body s'
  end.

(** [random] is the text of [Math.random().toString(36).substr(2, 9)]. *)
Definition queueOfflineOperation (op : Operation) (random : string) : M unit :=
  try_catch
    (pendingJson <- getPending ;;
     let pending := default [] pendingJson in
     t1 <- Date_now ;;
     t2 <- Date_now ;;
     let newOperation := mkPending (pretty t1 ++ "_" ++ random) op t2 in
     setPending (pending ++ [newOperation]))
    (fun _ => ret tt).

Definition syncPendingOperations : M unit :=
  try_catch
    (pendingJson <- getPending ;;
     match pendingJson with
     | None => ret tt
     | Some pending =>
         remaining <-
           for_of pending (fun operation remaining =>
             try_catch
               (ok <- fetch operation ;;
                if negb ok then ret (remaining ++ [operation])
                else ret remaining)
               (fun _ => ret (remaining ++ [operation]))) [] ;;
         if (0 <? length remaining)%nat then setPending remaining
         else removePending
     end)
    (fun _ => ret tt).

Definition getPendingOperationCount : M nat :=
  try_catch
    (pendingJson <- getPending ;;
     match pendingJson with
     | None => ret 0%nat
     | Some pending => ret (length pending)
     end)
    (fun _ => ret 0%nat).

(** The persisted queue as a list. *)
Definition queue (w : World) : list PendingSyncOperation :=
  default [] (pending w).

End Hook.

End OfflineCache.

(** * Properties of the molecule geometry *)

Module MoleculeFacts.

Import Molecule.

#[local] Open Scope float_scope.
#[local] Open Scope nat_scope.

(** ** Loops that only push *)

Lemma fold_left_push {A B : Type} (g : A -> list B) (body : A -> list B -> list B) :
  (forall a acc, body a acc = acc ++ g a) ->
  forall l s, fold_left (fun acc a => body a acc) l s = s ++ flat_map g l.
Proof.
  intros Hbody l. induction l as [|a l IH]; intros s; simpl.
  - now rewrite app_nil_r.
  - rewrite IH, Hbody, <- app_assoc. reflexivity.
Qed.

(** Whether the distance pass bonds the atoms at [i] and [j]. *)
Definition bonded (atoms : list Atom) (i j : nat) : bool :=
  match atoms !! i, atoms !! j with
  | Some ai, Some aj => (distance ai aj <? 1.9)%float
  | _, _ => false
  end.

Definition bonds_from (atoms : list Atom) (i : nat) : list Bond :=
  flat_map (fun j => if bonded atoms i j then [mkBond i j 1] else [])
           (seq (i + 1) (length atoms - (i + 1))).

Lemma generate_bonds_flat (atoms : list Atom) :
  generate_bonds atoms = flat_map (bonds_from atoms) (seq 0 (length atoms)).
Proof.
  unfold generate_bonds, for_range.
  rewrite (fold_left_push (bonds_from atoms)); [now rewrite Nat.sub_0_r|].
  intros i acc. unfold bonds_from.
  apply fold_left_push. intros j acc'. unfold bonded, push.
  destruct (atoms !! i); [destruct (atoms !! j)|];
    try (now rewrite app_nil_r).
  destruct (distance a a0 <? 1.9)%float; [reflexivity | now rewrite app_nil_r].
Qed.

Lemma in_bonds_from (atoms : list Atom) (i : nat) (b : Bond) :
  In b (bonds_from atoms i) <->
  atom1 b = i /\ i < atom2 b < length atoms /\ order b = 1 /\
  bonded atoms i (atom2 b) = true.
Proof.
  unfold bonds_from. rewrite in_flat_map. split.
  - intros (j & Hj & Hb). apply in_seq in Hj.
    destruct (bonded atoms i j) eqn:E; simpl in Hb; [|contradiction].
    destruct Hb as [<-|[]]. simpl. repeat split; try lia. exact E.
  - intros (H1 & H2 & H3 & H4). exists (atom2 b). split.
    + apply in_seq. lia.
    + rewrite H4. left. destruct b; simpl in *; congruence.
Qed.

Lemma in_generate_bonds (atoms : list Atom) (b : Bond) :
  In b (generate_bonds atoms) <->
  atom1 b < atom2 b < length atoms /\ order b = 1 /\
  bonded atoms (atom1 b) (atom2 b) = true.
Proof.
  rewrite generate_bonds_flat, in_flat_map. split.
  - intros (i & Hi & Hb). apply in_bonds_from in Hb.
    destruct Hb as (<- & H2 & H3 & H4). repeat split; try lia; assumption.
  - intros (H1 & H2 & H3). exists (atom1 b). split.
    + apply in_seq. lia.
    + apply in_bonds_from. repeat split; try lia; assumption.
Qed.

Lemma NoDup_bonds_from (atoms : list Atom) (i : nat) :
  NoDup (bonds_from atoms i).
Proof.
  unfold bonds_from.
  generalize (NoDup_seq (i + 1) (length atoms - (i + 1))).
  generalize (seq (i + 1) (length atoms - (i + 1))) as js.
  induction js as [|j js IH]; intros Hnd; simpl.
  - constructor.
  - apply NoDup_cons in Hnd. destruct Hnd as [Hj Hjs].
    destruct (bonded atoms i j); simpl; [|now apply IH].
    apply NoDup_cons. split; [|now apply IH].
    intros Hin. apply list_elem_of_In, in_flat_map in Hin.
    destruct Hin as (j' & Hin & Hb).
    destruct (bonded atoms i j'); simpl in Hb; [|contradiction].
    destruct Hb as [Hb|[]]. inversion Hb; subst.
    apply Hj, list_elem_of_In, Hin.
Qed.

Lemma NoDup_generate_bonds (atoms : list Atom) :
  NoDup (generate_bonds atoms).
Proof.
  rewrite generate_bonds_flat.
  generalize (NoDup_seq 0 (length atoms)).
  generalize (seq 0 (length atoms)) as l.
  induction l as [|i l IH]; intros Hnd; simpl.
  - constructor.
  - apply NoDup_cons in Hnd. destruct Hnd as [Hi Hl].
    apply NoDup_app. split; [apply NoDup_bonds_from|]. split; [|now apply IH].
    intros b Hb Hb'. apply list_elem_of_In, in_bonds_from in Hb.
    apply list_elem_of_In, in_flat_map in Hb'.
    destruct Hb' as (i' & Hi' & Hb').
    apply in_bonds_from in Hb'. destruct Hb as [E _], Hb' as [E' _].
    apply Hi, list_elem_of_In. congruence.
Qed.

(** ** The claims on bond inference *)

Definition at_x (e : string) (px : float) : Atom := mkAtom e px 0 0.

(** *** The distance pass as a test on pairs *)

(** The bonds of order 1 between the positions [i < j < n] that pass
    [test], in the order of the double loop. *)
Definition pairs_where (n : nat) (test : nat -> nat -> bool) : list Bond :=
  flat_map (fun i =>
    flat_map (fun j => if test i j then [mkBond i j 1] else [])
             (seq (i + 1) (n - (i + 1))))
    (seq 0 n).

Lemma in_pairs_where (n : nat) (test : nat -> nat -> bool) (b : Bond) :
  In b (pairs_where n test) <->
  atom1 b < atom2 b < n /\ order b = 1 /\ test (atom1 b) (atom2 b) = true.
Proof.
  unfold pairs_where. rewrite in_flat_map. split.
  - intros (i & Hi & Hb). apply in_seq in Hi. apply in_flat_map in Hb.
    destruct Hb as (j & Hj & Hb). apply in_seq in Hj.
    destruct (test i j) eqn:E; simpl in Hb; [|contradiction].
    destruct Hb as [<-|[]]. simpl. repeat split; try lia. exact E.
  - intros (H1 & H2 & H3). exists (atom1 b). split; [apply in_seq; lia|].
    apply in_flat_map. exists (atom2 b). split; [apply in_seq; lia|].
    rewrite H3. left. destruct b; simpl in *; congruence.
Qed.

Lemma pairs_where_ext (n : nat) (test test' : nat -> nat -> bool) :
  (forall i j, test i j = test' i j) -> pairs_where n test = pairs_where n test'.
Proof.
  intros H. unfold pairs_where. apply flat_map_ext. intros i.
  apply flat_map_ext. intros j. now rewrite H.
Qed.

Lemma generate_bonds_pairs (atoms : list Atom) :
  generate_bonds atoms = pairs_where (length atoms) (bonded atoms).
Proof. apply generate_bonds_flat. Qed.

Section PassOverArithmetic.

Context {F : Type}.
Variables sub mul add : F -> F -> F.
Variable root : F -> F.
Variable ltb : F -> F -> bool.
Variable threshold : F.

(** Whether the pass over the arithmetic bonds the positions at [i] and
    [j]. *)
Definition close_over (ps : list (F * F * F)) (i j : nat) : bool :=
  match ps !! i, ps !! j with
  | Some p, Some q => ltb (distance_over sub mul add root p q) threshold
  | _, _ => false
  end.

Lemma generate_bonds_over_pairs (ps : list (F * F * F)) :
  generate_bonds_over sub mul add root ltb threshold ps
  = pairs_where (length ps) (close_over ps).
Proof.
  unfold generate_bonds_over, for_range, pairs_where.
  rewrite (fold_left_push
             (fun i => flat_map
                (fun j => if close_over ps i j then [mkBond i j 1] else [])
                (seq (i + 1) (length ps - (i + 1)))));
    [now rewrite Nat.sub_0_r|].
  intros i acc. apply fold_left_push. intros j acc'. unfold close_over, push.
  destruct (ps !! i) as [p|]; [destruct (ps !! j) as [q|]|];
    try (now rewrite app_nil_r).
  destruct (ltb (distance_over sub mul add root p q) threshold);
    [reflexivity | now rewrite app_nil_r].
Qed.

End PassOverArithmetic.

Lemma lookup_map {A B : Type} (f : A -> B) (l : list A) (i : nat) :
  map f l !! i = option_map f (l !! i).
Proof.
  revert i. induction l as [|a l IH]; intros [|i]; try reflexivity.
  apply IH.
Qed.

(** The pass of [parseMoleculeData] is the pass over the arithmetic of
    Numbers. *)
Lemma generate_bonds_on_numbers (atoms : list Atom) :
  generate_bonds atoms
  = generate_bonds_over PrimFloat.sub PrimFloat.mul PrimFloat.add
      PrimFloat.sqrt PrimFloat.ltb 1.9%float (map position atoms).
Proof.
  rewrite generate_bonds_pairs, generate_bonds_over_pairs, length_map.
  apply pairs_where_ext. intros i j. unfold bonded, close_over.
  rewrite !lookup_map.
  destruct (atoms !! i) as [ai|]; [destruct (atoms !! j) as [aj|]|];
    reflexivity.
Qed.

(** *** Exact arithmetic *)

(** [a < b] on real numbers, as a test. *)
Definition Rltb (a b : R) : bool := if Rlt_dec a b then true else false.

Lemma Rltb_lt (a b : R) : Rltb a b = true <-> (a < b)%R.
Proof.
  unfold Rltb. destruct (Rlt_dec a b); split; intros H;
    try assumption; try reflexivity; try discriminate; contradiction.
Qed.

(** The distance pass run on real numbers, where no operation rounds, with
    the threshold 19/10. *)
Definition exact_bonds : list (R * R * R) -> list Bond :=
  generate_bonds_over Rminus Rmult Rplus R_sqrt.sqrt Rltb (19 / 10)%R.

Lemma in_exact_bonds (ps : list (R * R * R)) (b : Bond) :
  In b (exact_bonds ps) <->
  exists xi yi zi xj yj zj : R,
    atom1 b < atom2 b /\
    ps !! atom1 b = Some (xi, yi, zi) /\
    ps !! atom2 b = Some (xj, yj, zj) /\
    (R_sqrt.sqrt ((xi - xj) * (xi - xj) + (yi - yj) * (yi - yj)
                  + (zi - zj) * (zi - zj)) < 19 / 10)%R /\
    order b = 1.
Proof.
  unfold exact_bonds. rewrite generate_bonds_over_pairs, in_pairs_where.
  unfold close_over. split.
  - intros (H1 & H2 & H3).
    destruct (ps !! atom1 b) as [[[xi yi] zi]|] eqn:E1; [|discriminate].
    destruct (ps !! atom2 b) as [[[xj yj] zj]|] eqn:E2; [|discriminate].
    exists xi, yi, zi, xj, yj, zj. apply Rltb_lt in H3.
    repeat split; try lia; assumption.
  - intros (xi & yi & zi & xj & yj & zj & H1 & E1 & E2 & H2 & H3).
    rewrite E1, E2. apply lookup_lt_Some in E2.
    repeat split; try lia; try assumption. apply Rltb_lt. exact H2.
Qed.

(** The rational number a finite Number stands for: its signed mantissa
    times the power of two of its exponent. *)
Definition exact_value (f : float) : option Q :=
  match Prim2SF f with
  | S754_zero _ => Some 0%Q
  | S754_finite s m e =>
      Some (Qred (inject_Z (if s then Z.neg m else Z.pos m) * 2 ^ e)%Q)
  | _ => None
  end.

(** Two atoms whose distance is below 1.9 by less than the rounding of the
    sum of the squares. *)
Definition near_threshold : list Atom :=
  [ mkAtom "C" 0 0 0; mkAtom "C" 1.5 1.1661903789690597 0 ].

(** The pair of [near_threshold], at the exact values of its coordinates,
    is bonded by the pass on real numbers. *)
Lemma near_threshold_is_close :
  In (mkBond 0 1 1)
     (exact_bonds
        [ (0, 0, 0); (3 / 2, 5252054556168115 / 4503599627370496, 0) ]%R).
Proof.
  apply in_exact_bonds.
  exists 0%R, 0%R, 0%R,
         (3 / 2)%R, (5252054556168115 / 4503599627370496)%R, 0%R.
  repeat split; try reflexivity; try (cbn; lia).
  rewrite <- (sqrt_square (19 / 10)) by lra.
  apply sqrt_lt_1_alt. split; [|lra].
  apply Rplus_le_le_0_compat; [apply Rplus_le_le_0_compat|];
    rewrite <- Rsqr_def; apply Rle_0_sqr.
Qed.

(** C1, as the claim has it, fails on Numbers: the atoms at (0, 0, 0) and
    (1.5, 1.1661903789690597, 0) are at a distance below 1.9 (the square
    of their distance, computed on the exact values of the coordinates, is
    below the square of the exact value of the Number 1.9, which is itself
    below 19/10; the pass on real numbers bonds them), and they get no
    bond: the distance the code computes is the Number 1.9, which is not
    below 1.9. *)
Lemma C1_rounding_loses_a_close_pair :
  exact_value 1.5 = Some (3 # 2)%Q /\
  exact_value 1.1661903789690597
    = Some (5252054556168115 # 4503599627370496)%Q /\
  exact_value 1.9 = Some (4278419646001971 # 2251799813685248)%Q /\
  ((0 - (3 # 2)) * (0 - (3 # 2))
   + (0 - (5252054556168115 # 4503599627370496))
     * (0 - (5252054556168115 # 4503599627370496))
   + (0 - 0) * (0 - 0)
   < (4278419646001971 # 2251799813685248)
     * (4278419646001971 # 2251799813685248))%Q /\
  ((4278419646001971 # 2251799813685248) < (19 # 10))%Q /\
  In (mkBond 0 1 1)
     (generate_bonds_over Rminus Rmult Rplus R_sqrt.sqrt Rltb (19 / 10)%R
        [ (0, 0, 0); (3 / 2, 5252054556168115 / 4503599627370496, 0) ]%R) /\
  distance (mkAtom "C" 0 0 0) (mkAtom "C" 1.5 1.1661903789690597 0)
    = 1.9%float /\
  (1.9 <? 1.9)%float = false /\
  bonds (parseMoleculeData (Some near_threshold) None) = [].
Proof.
  do 5 (split; [vm_compute; reflexivity|]).
  split; [exact near_threshold_is_close|].
  repeat split; vm_compute; reflexivity.
Qed.

(** C1, amended: when the caller gives the atoms, the bonds are exactly the
    bonds of order 1 between the positions [i < j] for which the Number
    [sqrt(dx*dx + dy*dy + dz*dz)], every operation rounded to binary64, is
    below the Number 1.9, each once; this is the distance pass over the
    arithmetic of Numbers, and the same pass over the real numbers gives
    exactly the bonds of order 1 between the positions [i < j] whose
    Euclidean distance is below 19/10.  Atoms at (0,0,0) and (1,0,0) get
    the single bond 0-1, atoms at (0,0,0) and (5,0,0) get none. *)
Theorem C1_bonds_are_the_pairs_computed_close :
  (forall (atoms : list Atom) (pdbData : option string) (b : Bond),
     In b (bonds (parseMoleculeData (Some atoms) pdbData)) <->
     exists ai aj,
       atom1 b < atom2 b /\
       atoms !! atom1 b = Some ai /\ atoms !! atom2 b = Some aj /\
       (PrimFloat.sqrt ((x ai - x aj) * (x ai - x aj)
                        + (y ai - y aj) * (y ai - y aj)
                        + (z ai - z aj) * (z ai - z aj)) <? 1.9)%float = true /\
       order b = 1) /\
  (forall (atoms : list Atom) (pdbData : option string),
     List.NoDup (bonds (parseMoleculeData (Some atoms) pdbData))) /\
  (forall (atoms : list Atom) (pdbData : option string),
     bonds (parseMoleculeData (Some atoms) pdbData)
     = generate_bonds_over PrimFloat.sub PrimFloat.mul PrimFloat.add
         PrimFloat.sqrt PrimFloat.ltb 1.9%float (map position atoms)) /\
  (forall (ps : list (R * R * R)) (b : Bond),
     In b (generate_bonds_over Rminus Rmult Rplus R_sqrt.sqrt Rltb
             (19 / 10)%R ps) <->
     exists xi yi zi xj yj zj : R,
       atom1 b < atom2 b /\
       ps !! atom1 b = Some (xi, yi, zi) /\
       ps !! atom2 b = Some (xj, yj, zj) /\
       (R_sqrt.sqrt ((xi - xj) * (xi - xj) + (yi - yj) * (yi - yj)
                     + (zi - zj) * (zi - zj)) < 19 / 10)%R /\
       order b = 1) /\
  bonds (parseMoleculeData (Some [at_x "C" 0; at_x "C" 1.0]) None)
    = [mkBond 0 1 1] /\
  bonds (parseMoleculeData (Some [at_x "C" 0; at_x "C" 5]) None) = [].
Proof.
  split; [|split; [|split; [|split; [|split]]]].
  - intros atoms pdbData b. simpl. rewrite in_generate_bonds.
    unfold bonded, distance. split.
    + intros (H1 & H2 & H3).
      destruct (atoms !! atom1 b) as [ai|] eqn:E1; [|discriminate].
      destruct (atoms !! atom2 b) as [aj|] eqn:E2; [|discriminate].
      exists ai, aj. repeat split; try lia; assumption.
    + intros (ai & aj & H1 & E1 & E2 & H2 & H3).
      rewrite E1, E2. apply lookup_lt_Some in E2.
      repeat split; try lia; assumption.
  - intros atoms pdbData. simpl. apply NoDup_ListNoDup, NoDup_generate_bonds.
  - intros atoms pdbData. simpl. apply generate_bonds_on_numbers.
  - exact in_exact_bonds.
  - vm_compute. reflexivity.
  - vm_compute. reflexivity.
Qed.

(** The invariant of a molecule graph: the two ends of a bond differ and
    are positions of the atom sequence, and no pair is bonded in both
    directions. *)
Definition well_formed (m : Molecule) : Prop :=
  (forall b, In b (bonds m) ->
     atom1 b <> atom2 b /\
     atom1 b < length (atoms m) /\ atom2 b < length (atoms m)) /\
  (forall b b', In b (bonds m) -> In b' (bonds m) ->
     ~ (atom1 b' = atom2 b /\ atom2 b' = atom1 b)).

Lemma generate_bonds_well_formed (l : list Atom) :
  well_formed (mkMolecule l (generate_bonds l)).
Proof.
  split; simpl.
  - intros b Hb. apply in_generate_bonds in Hb. lia.
  - intros b b' Hb Hb'. apply in_generate_bonds in Hb, Hb'. lia.
Qed.

Definition well_formed_b (m : Molecule) : bool :=
  forallb (fun b =>
    negb (atom1 b =? atom2 b) &&
    (atom1 b <? length (atoms m)) && (atom2 b <? length (atoms m)) &&
    forallb (fun b' =>
      negb ((atom1 b' =? atom2 b) && (atom2 b' =? atom1 b))) (bonds m))
    (bonds m).

Lemma well_formed_b_sound (m : Molecule) :
  well_formed_b m = true -> well_formed m.
Proof.
  unfold well_formed_b. rewrite forallb_forall. intros H. split.
  - intros b Hb. specialize (H b Hb).
    rewrite !andb_true_iff, negb_true_iff in H.
    destruct H as [[[H1 H2] H3] _].
    apply Nat.eqb_neq in H1. apply Nat.ltb_lt in H2, H3. auto.
  - intros b b' Hb Hb' [E1 E2]. specialize (H b Hb).
    rewrite !andb_true_iff in H. destruct H as [_ H].
    rewrite forallb_forall in H. specialize (H b' Hb').
    rewrite negb_true_iff, andb_false_iff, !Nat.eqb_neq in H. tauto.
Qed.

Lemma parseMoleculeData_well_formed
  (given : option (list Atom)) (pdbData : option string) :
  well_formed (parseMoleculeData given pdbData).
Proof.
  unfold parseMoleculeData.
  destruct given as [l|]; [apply generate_bonds_well_formed|].
  destruct pdbData as [[|c t]|];
    try apply generate_bonds_well_formed;
    apply well_formed_b_sound; vm_compute; reflexivity.
Qed.

(** C2: whatever the viewer is given, no bond of the molecule joins an
    atom to itself, every bond index is a position of the atom sequence,
    and no pair of atoms is bonded in both directions; the inferred bonds
    moreover run from the lower index to the higher. *)
Theorem C2_bonds_well_formed :
  forall (given : option (list Atom)) (pdbData : option string),
    let m := parseMoleculeData given pdbData in
    (forall b, In b (bonds m) ->
       atom1 b <> atom2 b /\
       atom1 b < length (atoms m) /\ atom2 b < length (atoms m)) /\
    (forall b b', In b (bonds m) -> In b' (bonds m) ->
       ~ (atom1 b' = atom2 b /\ atom2 b' = atom1 b)) /\
    (forall l b, In b (generate_bonds l) -> atom1 b < atom2 b < length l).
Proof.
  intros given pdbData m.
  destruct (parseMoleculeData_well_formed given pdbData) as [W1 W2].
  split; [exact W1|]. split; [exact W2|].
  intros l b Hb. apply in_generate_bonds in Hb. lia.
Qed.

(** The theorem of C2 at three atoms in a row and the bond 1-2. *)
Lemma C2_bonds_well_formed_witness :
  let l := [at_x "C" 0; at_x "O" 1.2; at_x "H" 2.3] in
  let b := mkBond 1 2 1 in
  In b (bonds (parseMoleculeData (Some l) None)) /\
  atom1 b <> atom2 b /\ atom1 b < length l /\ atom2 b < length l.
Proof.
  assert (Hin : In (mkBond 1 2 1)
                   (bonds (parseMoleculeData
                             (Some [at_x "C" 0; at_x "O" 1.2; at_x "H" 2.3])
                             None))).
  { vm_compute. right. left. reflexivity. }
  split; [exact Hin|].
  exact (proj1 (C2_bonds_well_formed
                  (Some [at_x "C" 0; at_x "O" 1.2; at_x "H" 2.3]) None)
               (mkBond 1 2 1) Hin).
Defined.

(** ** Parsing structure files *)

(** [parseFloat] on coordinate fields and on the edges of its grammar. *)
Example parseFloat_examples :
  JS.parseFloat "  11.104" = 11.104%float /\
  JS.parseFloat "  -6.504" = (-6.504)%float /\
  JS.parseFloat "   0.000" = 0%float /\
  JS.parseFloat "-1.5e3 A" = (-1500)%float /\
  JS.parseFloat "1.e2" = 100%float /\
  JS.parseFloat "7e" = 7%float /\
  JS.parseFloat ".25" = 0.25%float /\
  JS.parseFloat "-Infinity" = PrimFloat.neg_infinity /\
  PrimFloat.is_nan (JS.parseFloat "        ") = true /\
  PrimFloat.is_nan (JS.parseFloat "  x1.0  ") = true /\
  PrimFloat.is_nan (JS.parseFloat ".") = true.
Proof. vm_compute. repeat split. Qed.

Lemma parse_pdb_map_filter (text : string) :
  parse_pdb text = map parse_record (filter is_record (JS.split_lines text)).
Proof.
  unfold parse_pdb, for_of.
  rewrite (fold_left_push
             (fun line => if is_record line then [parse_record line] else [])).
  - simpl. induction (JS.split_lines text) as [|line lines IH]; simpl.
    + reflexivity.
    + rewrite filter_cons. destruct (decide (is_record line)) as [E|E].
      * apply Is_true_true in E. rewrite E. simpl. now rewrite IH.
      * apply Is_true_false in E. rewrite E. simpl. exact IH.
  - intros line acc. unfold push.
    destruct (is_record line); [reflexivity | now rewrite app_nil_r].
Qed.

(** The lines of a text are what the line feeds separate. *)
Definition has_newline (s : string) : bool :=
  existsb (Ascii.eqb JS.newline) (list_ascii_of_string s).

Lemma split_lines_not_nil (text : string) : JS.split_lines text <> [].
Proof.
  destruct text as [|c t]; simpl; [discriminate|].
  destruct (Ascii.eqb c JS.newline); [discriminate|].
  destruct (JS.split_lines t); discriminate.
Qed.

Lemma split_lines_concat (text : string) :
  String.concat (String JS.newline EmptyString) (JS.split_lines text) = text.
Proof.
  induction text as [|c t IH]; simpl; [reflexivity|].
  destruct (Ascii.eqb c JS.newline) eqn:E.
  - apply Ascii.eqb_eq in E. subst c.
    pose proof (split_lines_not_nil t) as Hne.
    destruct (JS.split_lines t) as [|l ls] eqn:El; [contradiction|].
    change (String.concat _ (EmptyString :: l :: ls))
      with (String JS.newline (String.concat (String JS.newline EmptyString) (l :: ls))).
    now rewrite IH.
  - pose proof (split_lines_not_nil t) as Hne.
    destruct (JS.split_lines t) as [|l ls] eqn:El; [contradiction|].
    destruct ls as [|l' ls']; simpl in *; now rewrite <- IH.
Qed.

Lemma split_lines_no_newline (text : string) :
  forall line, In line (JS.split_lines text) -> has_newline line = false.
Proof.
  induction text as [|c t IH]; simpl.
  - intros line [<-|[]]. reflexivity.
  - destruct (Ascii.eqb c JS.newline) eqn:E.
    + intros line [<-|H]; [reflexivity | now apply IH].
    + pose proof (split_lines_not_nil t) as Hne.
      destruct (JS.split_lines t) as [|l ls]; [contradiction|].
      intros line [<-|H].
      * unfold has_newline. cbn [list_ascii_of_string existsb].
        rewrite Ascii.eqb_sym, E. apply (IH l). now left.
      * apply IH. now right.
Qed.

(** The code units of [s.substring(a, b)] are those of [s] at the columns
    from [a] up to, not including, [b]. *)
Lemma substring_columns (a b : nat) (s : string) (k : nat) :
  a <= b ->
  String.get k (JS.substring a b s) =
  if k <? b - a then String.get (a + k) s else None.
Proof.
  intros Hab. unfold JS.substring.
  rewrite Nat.min_l, Nat.max_r by lia.
  destruct (k <? b - a) eqn:E.
  - apply Nat.ltb_lt in E. rewrite substring_correct1 by exact E.
    f_equal. lia.
  - apply Nat.ltb_ge in E. now apply substring_correct2.
Qed.

Definition nl : string := String JS.newline EmptyString.

(** A structure file with two atom records among other lines.  The first
    record carries the element in columns 76-77; the second ends after the
    coordinates and names its element in columns 12-13 only. *)
Definition snippet : string :=
  ("HEADER    TWO ATOMS" ++ nl ++
   "ATOM      1  N   ALA A   1      11.104   6.134  -6.504  1.00  0.00           N" ++ nl ++
   "REMARK   1 ATOM AND HETATM RECORDS" ++ nl ++
   "HETATM    2  O   HOH A   2      11.500   6.900  -6.000" ++ nl ++
   "END")%string.

(** C5: a structure file that is not empty is parsed into one atom per
    line that starts with ATOM or HETATM, in the order of the lines, the
    other lines being ignored; the coordinates are the Numbers read from
    columns 30-37, 38-45 and 46-53, the element is the trimmed text of
    columns 76-77 or, when that is empty, of columns 12-13; the bonds are
    those the distance pass infers on the parsed atoms.  The two records
    of [snippet] give the two atoms with exactly the coordinates written
    in the file, and the bond between them. *)
Theorem C5_structure_file_parsing :
  (forall text : string,
     text <> EmptyString ->
     let m := parseMoleculeData None (Some text) in
     let lines := JS.split_lines text in
     String.concat nl lines = text /\
     (forall line, In line lines -> has_newline line = false) /\
     atoms m = map parse_record (filter is_record lines) /\
     length (atoms m) = length (filter is_record lines) /\
     bonds m = generate_bonds (atoms m)) /\
  (forall line : string,
     is_record line
       = (String.prefix "ATOM" line || String.prefix "HETATM" line)%bool /\
     x (parse_record line) = JS.parseFloat (JS.substring 30 38 line) /\
     y (parse_record line) = JS.parseFloat (JS.substring 38 46 line) /\
     z (parse_record line) = JS.parseFloat (JS.substring 46 54 line) /\
     element (parse_record line)
       = (if String.eqb (JS.trim (JS.substring 76 78 line)) EmptyString
          then JS.trim (JS.substring 12 14 line)
          else JS.trim (JS.substring 76 78 line))) /\
  (forall (a b : nat) (s : string) (k : nat),
     a <= b ->
     String.get k (JS.substring a b s)
       = if k <? b - a then String.get (a + k) s else None) /\
  parseMoleculeData None (Some snippet)
    = mkMolecule [ mkAtom "N" 11.104 6.134 (-6.504);
                   mkAtom "O" 11.5 6.9 (-6) ]
                 [ mkBond 0 1 1 ].
Proof.
  split; [|split; [|split]].
  - intros text Hne m lines. subst m lines.
    destruct text as [|c t]; [contradiction|].
    unfold parseMoleculeData. cbn [atoms bonds].
    rewrite parse_pdb_map_filter, length_map.
    repeat split.
    + apply split_lines_concat.
    + apply split_lines_no_newline.
  - intros line. repeat split.
    unfold parse_record. cbn [element].
    destruct (JS.trim (JS.substring 76 78 line)); reflexivity.
  - intros a b s k. apply substring_columns.
  - vm_compute. reflexivity.
Qed.

(** The theorem of C5 at [snippet]. *)
Lemma C5_structure_file_parsing_witness :
  let m := parseMoleculeData None (Some snippet) in
  snippet <> EmptyString /\
  atoms m = map parse_record (filter is_record (JS.split_lines snippet)) /\
  length (atoms m) = 2.
Proof.
  assert (Hne : snippet <> EmptyString) by (vm_compute; discriminate).
  destruct (proj1 C5_structure_file_parsing snippet Hne)
    as (_ & _ & Ha & Hl & _).
  split; [exact Hne|]. split; [exact Ha|].
  rewrite Hl. vm_compute. reflexivity.
Defined.

(** ** The built-in molecule *)

(** C10: with neither atoms nor structure text (an absent or an empty
    text) the result is the built-in molecule: 12 atoms and 13 listed
    bonds, each of order 1 or 2 and both orders present. *)
Theorem C10_demo_molecule :
  parseMoleculeData None None = mkMolecule demoAtoms demoBonds /\
  parseMoleculeData None (Some EmptyString) = mkMolecule demoAtoms demoBonds /\
  length demoAtoms = 12 /\
  length demoBonds = 13 /\
  map order demoBonds = [1; 1; 1; 2; 1; 2; 2; 1; 1; 2; 1; 1; 2] /\
  map element demoAtoms
    = ["C"; "C"; "N"; "C"; "C"; "N"; "O"; "N"; "C"; "N"; "C"; "O"]%string /\
  map (fun b => (atom1 b, atom2 b)) demoBonds
    = [(0, 1); (1, 2); (2, 3); (3, 4); (4, 5); (5, 0); (1, 6); (4, 7);
       (7, 8); (8, 9); (9, 10); (10, 3); (10, 11)].
Proof. repeat split. Qed.

(** ** The scene *)

Definition sphere_of (st : Style) (c : float * float * float) (a : Atom) : Mesh :=
  Sphere (atom_radius (element a) st) (atom_color (element a))
         (float_shift c (position a)).

Definition cylinder_of (c : float * float * float) (l : list Atom) (b : Bond)
  : option Mesh :=
  match l !! atom1 b, l !! atom2 b with
  | Some a1, Some a2 =>
      Some (Cylinder (float_shift c (position a1)) (float_shift c (position a2)))
  | _, _ => None
  end.

Definition bond_cylinders (c : float * float * float) (l : list Atom)
  (bs : list Bond) : list Mesh :=
  flat_map (fun b => match cylinder_of c l b with
                     | Some m => [m]
                     | None => []
                     end) bs.

Lemma create_atoms_map (st : Style) (c : float * float * float)
  (l : list Atom) (g : list Mesh) :
  create_atoms st c l g = g ++ map (sphere_of st c) l.
Proof.
  unfold create_atoms, for_of.
  rewrite (fold_left_push (fun a => [sphere_of st c a])) by reflexivity.
  reflexivity.
Qed.

Lemma create_bonds_loaded (c : float * float * float) (l : list Atom)
  (bs : list Bond) :
  (forall b, In b bs -> atom1 b < length l /\ atom2 b < length l) ->
  forall g,
    create_bonds c l bs g = Loaded (g ++ bond_cylinders c l bs) /\
    length (bond_cylinders c l bs) = length bs.
Proof.
  unfold create_bonds, for_of.
  induction bs as [|b bs IH]; intros Hv g.
  - simpl. now rewrite app_nil_r.
  - destruct (Hv b (or_introl eq_refl)) as [H1 H2].
    cbn [fold_left]. unfold bond_cylinders in *. cbn [flat_map].
    unfold cylinder_of at 1 3.
    destruct (l !! atom1 b) as [a1|] eqn:E1;
      [|apply lookup_ge_None in E1; lia].
    destruct (l !! atom2 b) as [a2|] eqn:E2;
      [|apply lookup_ge_None in E2; lia].
    destruct (IH (fun b' Hb' => Hv b' (or_intror Hb'))
                 (push g (Cylinder (float_shift c (position a1))
                                   (float_shift c (position a2)))))
      as [IH1 IH2].
    rewrite IH1. unfold push. split.
    + now rewrite <- app_assoc.
    + cbn [app length]. now rewrite IH2.
Qed.

(** What the viewer builds: one sphere per atom in every style, followed by
    one cylinder per bond unless the style is space-fill. *)
Lemma onContextCreate_group (props : MoleculeViewerProps) :
  let st := default ball_stick (style props) in
  let m := parseMoleculeData (inputAtoms props) (pdbData props) in
  let c := float_centre (map position (atoms m)) in
  onContextCreate props
    = Loaded (map (sphere_of st c) (atoms m) ++
              match st with
              | space_fill => []
              | _ => bond_cylinders c (atoms m) (bonds m)
              end) /\
  length (bond_cylinders c (atoms m) (bonds m)) = length (bonds m).
Proof.
  intros st m c. unfold onContextCreate. fold st m c.
  rewrite create_atoms_map. cbn [app].
  destruct (parseMoleculeData_well_formed (inputAtoms props) (pdbData props))
    as [W _]. fold m in W.
  assert (V : forall b, In b (bonds m) ->
                atom1 b < length (atoms m) /\ atom2 b < length (atoms m)).
  { intros b Hb. destruct (W b Hb) as (_ & H1 & H2). now split. }
  destruct (create_bonds_loaded c (atoms m) (bonds m) V
              (map (sphere_of st c) (atoms m))) as [E L].
  split; [|exact L].
  destruct st; try exact E. now rewrite app_nil_r.
Qed.

(** ** Radii and styles *)

(** Whether [e] names a property inherited from [Object.prototype]. *)
Definition inherited (e : string) : bool :=
  existsb (String.eqb e) JS.Object_prototype.

Lemma own_radius_truthy (e : string) (v : float) :
  JS.own ATOM_RADII e = Some v -> JS.truthy (JS.Num v) = true.
Proof.
  unfold ATOM_RADII. cbn [JS.own].
  repeat (destruct (String.eqb _ e);
          [intros E; injection E as <-; reflexivity|]).
  discriminate.
Qed.

Lemma atom_radius_base (e : string) (st : Style) :
  inherited e = false ->
  atom_radius e st = (default 0.8 (JS.own ATOM_RADII e) * multiplier st)%float.
Proof.
  intros Hi. unfold atom_radius, JS.get. fold (inherited e). rewrite Hi.
  destruct (JS.own ATOM_RADII e) as [v|] eqn:E.
  - unfold JS.or_else. now rewrite (own_radius_truthy e v E).
  - reflexivity.
Qed.

(** An element named like an inherited property reads a function from the
    radius table, and its radius is not a number. *)
Example inherited_name_has_no_radius :
  inherited "constructor" = true /\
  PrimFloat.is_nan (atom_radius "constructor" ball_stick) = true.
Proof. vm_compute. split; reflexivity. Qed.

Definition one_carbon (st : Style) : MoleculeViewerProps :=
  mkProps (Some [at_x "C" 0]) None None None (Some st).

(** C7, as the claim has it, fails in wireframe style: the viewer given
    one carbon atom and the wireframe style creates the sphere of that
    atom, with the radius of the ball-stick style. *)
Lemma C7_wireframe_creates_spheres :
  onContextCreate (one_carbon wireframe)
    = Loaded [Sphere (0.77 * 0.4) (JS.Num 0x909090) (0, 0, 0)%float] /\
  onContextCreate (one_carbon wireframe) <> Loaded [].
Proof.
  split; [vm_compute; reflexivity|].
  vm_compute. discriminate.
Qed.

(** C7, amended: for an element that names no inherited property, the
    radius is the entry of the radius table (0.8 when the element has
    none) times the multiplier of the style, 1.5 for space-fill and 0.4,
    which is smaller, for both ball-stick and wireframe; in every style,
    wireframe included, the viewer creates one sphere per atom, followed
    by one cylinder per bond unless the style is space-fill. *)
Theorem C7_radius_by_element_and_style :
  (forall (e : string) (st : Style),
     inherited e = false ->
     atom_radius e st
       = (default 0.8 (JS.own ATOM_RADII e) * multiplier st)%float) /\
  multiplier space_fill = 1.5%float /\
  multiplier ball_stick = 0.4%float /\
  multiplier wireframe = 0.4%float /\
  (multiplier ball_stick <? multiplier space_fill)%float = true /\
  (forall props : MoleculeViewerProps,
     let st := default ball_stick (style props) in
     let m := parseMoleculeData (inputAtoms props) (pdbData props) in
     let c := float_centre (map position (atoms m)) in
     onContextCreate props
       = Loaded (map (sphere_of st c) (atoms m) ++
                 match st with
                 | space_fill => []
                 | _ => bond_cylinders c (atoms m) (bonds m)
                 end) /\
     length (bond_cylinders c (atoms m) (bonds m)) = length (bonds m)).
Proof.
  split; [exact atom_radius_base|].
  repeat (split; [reflexivity|]).
  exact onContextCreate_group.
Qed.

(** The theorem of C7 at carbon and at an element without entry. *)
Lemma C7_radius_by_element_and_style_witness :
  inherited "C" = false /\
  atom_radius "C" space_fill = (0.77 * 1.5)%float /\
  inherited "Xx" = false /\
  atom_radius "Xx" wireframe = (0.8 * 0.4)%float.
Proof.
  split; [reflexivity|]. split.
  - exact (proj1 C7_radius_by_element_and_style "C" space_fill eq_refl).
  - split; [reflexivity|].
    exact (proj1 C7_radius_by_element_and_style "Xx" wireframe eq_refl).
Defined.

(** ** Bonds given by the caller *)

(** C8 does not hold of the code: the [bonds] property is received and
    never read, so the scene is the same whatever bonds the caller gives.
    Given two atoms one unit apart and an empty bond list, the viewer
    still draws the inferred bond; given two atoms five units apart and a
    double bond between them, it draws none. *)
Theorem C8_supplied_bonds_are_not_read :
  (forall a b b' s p st,
     onContextCreate (mkProps a b s p st)
       = onContextCreate (mkProps a b' s p st)) /\
  onContextCreate
    (mkProps (Some [at_x "C" 0; at_x "C" 1]) (Some []) None None None)
    = Loaded [ Sphere (0.77 * 0.4) (JS.Num 0x909090) (-0.5, 0, 0)%float;
               Sphere (0.77 * 0.4) (JS.Num 0x909090) (0.5, 0, 0)%float;
               Cylinder (-0.5, 0, 0)%float (0.5, 0, 0)%float ] /\
  onContextCreate
    (mkProps (Some [at_x "C" 0; at_x "C" 5]) (Some [mkBond 0 1 2])
             None None None)
    = Loaded [ Sphere (0.77 * 0.4) (JS.Num 0x909090) (-2.5, 0, 0)%float;
               Sphere (0.77 * 0.4) (JS.Num 0x909090) (2.5, 0, 0)%float ].
Proof.
  split; [reflexivity|]. split; vm_compute; reflexivity.
Qed.

(** ** Centring *)

(** The caller's translation of the atoms by the vector [t]. *)
Definition translate_atom (t : float * float * float) (a : Atom) : Atom :=
  let '(tx, ty, tz) := t in
  mkAtom (element a) (x a + tx)%float (y a + ty)%float (z a + tz)%float.

(** The positions of the spheres of a scene. *)
Definition sphere_positions (o : Outcome) : list (float * float * float) :=
  match o with
  | Loaded group =>
      flat_map (fun m => match m with
                         | Sphere _ _ p => [p]
                         | Cylinder _ _ => []
                         end) group
  | Failed _ => []
  end.

Definition viewer_of (l : list Atom) : MoleculeViewerProps :=
  mkProps (Some l) None None None None.

Lemma bond_cylinders_no_sphere (c : float * float * float) (l : list Atom)
  (bs : list Bond) :
  flat_map (fun m => match m with
                     | Sphere _ _ p => [p]
                     | Cylinder _ _ => []
                     end) (bond_cylinders c l bs) = [].
Proof.
  unfold bond_cylinders. induction bs as [|b bs IH]; [reflexivity|].
  cbn [flat_map]. rewrite flat_map_app, IH, app_nil_r.
  unfold cylinder_of.
  destruct (l !! atom1 b); [destruct (l !! atom2 b)|]; reflexivity.
Qed.

Lemma sphere_positions_centred (props : MoleculeViewerProps) :
  sphere_positions (onContextCreate props)
  = centred 0%float PrimFloat.add PrimFloat.sub PrimFloat.div JS.of_nat
      (map position
           (atoms (parseMoleculeData (inputAtoms props) (pdbData props)))).
Proof.
  destruct (onContextCreate_group props) as [E _]. rewrite E.
  unfold sphere_positions. rewrite flat_map_app.
  set (m := parseMoleculeData (inputAtoms props) (pdbData props)).
  set (c := float_centre (map position (atoms m))).
  assert (Hc : flat_map (fun m0 => match m0 with
                                   | Sphere _ _ p => [p]
                                   | Cylinder _ _ => []
                                   end)
                 match default ball_stick (style props) with
                 | space_fill => []
                 | _ => bond_cylinders c (atoms m) (bonds m)
                 end = []).
  { destruct (default ball_stick (style props));
      try apply bond_cylinders_no_sphere; reflexivity. }
  rewrite Hc, app_nil_r. unfold centred. fold float_centre. fold c.
  generalize (atoms m) as l. induction l as [|a l IH]; [reflexivity|].
  cbn [map flat_map app]. now rewrite IH.
Qed.

(** *** Exact arithmetic *)

Definition Qc_of_nat (n : nat) : Qc := Q2Qc (inject_Z (Z.of_nat n)).

(** The centring of the viewer run on rationals, where no operation
    rounds. *)
Definition exact_centred : list (Qc * Qc * Qc) -> list (Qc * Qc * Qc) :=
  centred (Q2Qc 0) Qcplus Qcminus Qcdiv Qc_of_nat.

Definition translate (t p : Qc * Qc * Qc) : Qc * Qc * Qc :=
  let '(tx, ty, tz) := t in
  let '(px, py, pz) := p in
  (px + tx, py + ty, pz + tz)%Qc.

Lemma Qc_of_nat_S (n : nat) : Qc_of_nat (S n) = (Qc_of_nat n + 1)%Qc.
Proof.
  unfold Qc_of_nat. apply Qc_is_canon. simpl.
  rewrite !Qred_correct. rewrite Nat2Z.inj_succ.
  unfold Qeq, Qplus, inject_Z. simpl. lia.
Qed.

Lemma Qc_of_nat_S_neq_0 (n : nat) : Qc_of_nat (S n) <> Q2Qc 0.
Proof.
  unfold Qc_of_nat. intros H. apply Q2Qc_eq_iff in H.
  unfold Qeq, inject_Z in H. simpl in H. lia.
Qed.

Definition sum1 (xs : list Qc) (a : Qc) : Qc := fold_left Qcplus xs a.

Lemma sum1_acc (xs : list Qc) :
  forall a d, sum1 xs (a + d)%Qc = (sum1 xs a + d)%Qc.
Proof.
  unfold sum1. induction xs as [|u xs IH]; intros a d; simpl.
  - reflexivity.
  - replace (a + d + u)%Qc with (a + u + d)%Qc by ring. apply IH.
Qed.

Lemma sum1_translate (t : Qc) (xs : list Qc) :
  forall a,
    sum1 (map (fun u => u + t)%Qc xs) a
    = (sum1 xs a + Qc_of_nat (length xs) * t)%Qc.
Proof.
  induction xs as [|u xs IH]; intros a.
  - simpl. change (Qc_of_nat 0) with (Q2Qc 0). ring.
  - cbn [map length]. rewrite Qc_of_nat_S.
    change (sum1 (?v :: ?l) ?b) with (sum1 l (b + v)%Qc).
    rewrite IH.
    replace (a + (u + t))%Qc with (a + u + t)%Qc by ring.
    rewrite sum1_acc. ring.
Qed.

Lemma centre_components (ps : list (Qc * Qc * Qc)) :
  centre (Q2Qc 0) Qcplus Qcdiv Qc_of_nat ps
  = (sum1 (map (fun p => fst (fst p)) ps) (Q2Qc 0) / Qc_of_nat (length ps),
     sum1 (map (fun p => snd (fst p)) ps) (Q2Qc 0) / Qc_of_nat (length ps),
     sum1 (map snd ps) (Q2Qc 0) / Qc_of_nat (length ps))%Qc.
Proof.
  unfold centre, for_of, sum1.
  generalize (Q2Qc 0) at 1 4 as ax.
  generalize (Q2Qc 0) at 1 3 as ay.
  generalize (Q2Qc 0) at 1 2 as az.
  generalize (Qc_of_nat (length ps)) as n.
  induction ps as [|[[px py] pz] ps IH]; intros n az ay ax.
  - reflexivity.
  - cbn [fold_left map fst snd]. apply IH.
Qed.

Lemma map_translate_components (t : Qc * Qc * Qc) (ps : list (Qc * Qc * Qc)) :
  map (fun p => fst (fst p)) (map (translate t) ps)
    = map (fun u => u + fst (fst t))%Qc (map (fun p => fst (fst p)) ps) /\
  map (fun p => snd (fst p)) (map (translate t) ps)
    = map (fun u => u + snd (fst t))%Qc (map (fun p => snd (fst p)) ps) /\
  map snd (map (translate t) ps)
    = map (fun u => u + snd t)%Qc (map snd ps).
Proof.
  destruct t as [[tx ty] tz].
  induction ps as [|[[px py] pz] ps (IH1 & IH2 & IH3)]; [now repeat split|].
  cbn [map translate fst snd] in *. now rewrite IH1, IH2, IH3.
Qed.

Lemma exact_centred_translate (t : Qc * Qc * Qc) (ps : list (Qc * Qc * Qc)) :
  exact_centred (map (translate t) ps) = exact_centred ps.
Proof.
  unfold exact_centred, centred. rewrite !centre_components.
  destruct (map_translate_components t ps) as (E1 & E2 & E3).
  rewrite E1, E2, E3, !sum1_translate, !length_map.
  destruct ps as [|p0 ps0]; [reflexivity|].
  set (ps := p0 :: ps0).
  assert (Hn : Qc_of_nat (length ps) <> Q2Qc 0) by apply Qc_of_nat_S_neq_0.
  revert Hn. generalize (Qc_of_nat (length ps)) as n.
  generalize (sum1 (map (fun p => fst (fst p)) ps) (Q2Qc 0)) as sx.
  generalize (sum1 (map (fun p => snd (fst p)) ps) (Q2Qc 0)) as sy.
  generalize (sum1 (map snd ps) (Q2Qc 0)) as sz.
  intros sz sy sx n Hn. rewrite map_map.
  apply map_ext. intros [[px py] pz]. destruct t as [[tx ty] tz].
  cbn [translate shift fst snd].
  f_equal; [f_equal|]; field; exact Hn.
Qed.

Definition three_atoms : list Atom := [at_x "C" 1; at_x "C" 2; at_x "C" 4].

(** C6, as the claim has it, fails on Numbers: the atoms at x = 1, 2 and 4
    moved by (2, 0, 0), a translation that is exact, are centred to
    positions that differ in the last places from those of the atoms
    where they were (13/3 and 7/3 do not round alike). *)
Lemma C6_rounding_breaks_invariance :
  map position (map (translate_atom (2, 0, 0)%float) three_atoms)
    = [(3, 0, 0); (4, 0, 0); (6, 0, 0)]%float /\
  sphere_positions (onContextCreate (viewer_of three_atoms))
    = [ (-1.3333333333333335, 0, 0);
        (-0.33333333333333348, 0, 0);
        (1.6666666666666665, 0, 0) ]%float /\
  sphere_positions
    (onContextCreate (viewer_of (map (translate_atom (2, 0, 0)%float) three_atoms)))
    = [ (-1.333333333333333, 0, 0);
        (-0.33333333333333304, 0, 0);
        (1.666666666666667, 0, 0) ]%float /\
  sphere_positions
    (onContextCreate (viewer_of (map (translate_atom (2, 0, 0)%float) three_atoms)))
    <> sphere_positions (onContextCreate (viewer_of three_atoms)).
Proof.
  split; [vm_compute; reflexivity|].
  split; [vm_compute; reflexivity|].
  split; [vm_compute; reflexivity|].
  intros H.
  apply (f_equal (fun l => match l with
                           | (px, _, _) :: _ =>
                               PrimFloat.eqb px (-1.3333333333333335)%float
                           | [] => false
                           end)) in H.
  vm_compute in H. discriminate.
Qed.

(** C6, amended: the spheres of the viewer sit at the positions of the
    atoms minus their centre, computed on Numbers; the same centring run
    in exact rational arithmetic gives the same output for a set of
    positions and for that set moved by any vector. *)
Theorem C6_centring_is_translation_invariant_in_exact_arithmetic :
  (forall props : MoleculeViewerProps,
     sphere_positions (onContextCreate props)
     = centred 0%float PrimFloat.add PrimFloat.sub PrimFloat.div JS.of_nat
         (map position
              (atoms (parseMoleculeData (inputAtoms props) (pdbData props))))) /\
  (forall (t : Qc * Qc * Qc) (ps : list (Qc * Qc * Qc)),
     centred (Q2Qc 0) Qcplus Qcminus Qcdiv Qc_of_nat (map (translate t) ps)
     = centred (Q2Qc 0) Qcplus Qcminus Qcdiv Qc_of_nat ps).
Proof.
  split; [exact sphere_positions_centred | exact exact_centred_translate].
Qed.

End MoleculeFacts.

(** * Properties of the offline cache *)

Module OfflineCacheFacts.

Import OfflineCache.

#[local] Open Scope Z_scope.

(** Reads the fields of worlds and states that are written out. *)
Ltac fields :=
  cbn [entries pending storage_up clock fetcher_calls requests hook isMounted
       st_data isLoading isStale isOffline error fst snd negb].

(** Unfolds a call of the hook down to the world it leaves. *)
Ltac run :=
  unfold read, mount, loadCachedData, refresh, fetchAndCache,
    queueOfflineOperation, syncPendingOperations,
    finally, try_catch, bind, ret, when_mounted,
    setData, setIsLoading, setIsStale, setError, set_hook, modify,
    Date_now, call_fetcher, getItem, setItem, getPending, setPending,
    removePending, storage_call;
  fields.

Section Reads.

Context {T : Type}.
Variable truthy : T -> bool.
Variable fetcher : nat -> Fetched (T := T).
Variable key : string.
Variable options : CacheOptions.

(** Whether the entry under the key of the hook, if any, is past its time
    to live at the clock of [w]. *)
Definition expired (e : CachedData (T := T)) (now : Z) : bool :=
  now - timestamp e >? cached_ttl e.

Lemma fetchAndCache_fulfilled (r : Render) (w : World) (v : T) :
  storage_up w = true ->
  isMounted w = true ->
  settled (fetcher (fetcher_calls w)) = inr v ->
  snd (fetchAndCache truthy fetcher key options r w)
  = mkWorld
      (<[cacheKey key :=
           mkCached v (clock w + elapsed (fetcher (fetcher_calls w)))
                    (ttl options)]> (entries w))
      (pending w) true
      (clock w + elapsed (fetcher (fetcher_calls w)))
      (S (fetcher_calls w)) (requests w)
      (mkState (Some v) false false (isOffline (hook w)) None)
      true.
Proof.
  intros Hs Hm Hf. destruct w as [en pe up cl fc rq hk mt].
  cbn in Hs, Hm, Hf. subst up mt. run. rewrite Hf. reflexivity.
Qed.

Lemma fetchAndCache_rejected (r : Render) (w : World) (err : Error) :
  isMounted w = true ->
  settled (fetcher (fetcher_calls w)) = inl err ->
  snd (fetchAndCache truthy fetcher key options r w)
  = mkWorld
      (entries w) (pending w) (storage_up w)
      (clock w + elapsed (fetcher (fetcher_calls w)))
      (S (fetcher_calls w)) (requests w)
      (if offline_with_data truthy r
       then mkState (st_data (hook w)) false true (isOffline (hook w)) None
       else mkState (st_data (hook w)) false (isStale (hook w))
                    (isOffline (hook w)) (Some err))
      true.
Proof.
  intros Hm Hf. destruct w as [en pe up cl fc rq hk mt].
  cbn in Hm, Hf. subst mt. run. rewrite Hf.
  destruct (offline_with_data truthy r); reflexivity.
Qed.

Lemma loadCachedData_fresh (r : Render) (w : World) (e : CachedData) :
  storage_up w = true ->
  isMounted w = true ->
  entries w !! cacheKey key = Some e ->
  clock w - timestamp e <= cached_ttl e ->
  snd (loadCachedData truthy fetcher key options r w)
  = mkWorld (entries w) (pending w) true (clock w) (fetcher_calls w)
            (requests w)
            (mkState (Some (cached_data e)) false false (isOffline (hook w))
                     (error (hook w)))
            true.
Proof.
  intros Hs Hm He Hfresh. destruct w as [en pe up cl fc rq hk mt].
  cbn in Hs, Hm, He, Hfresh. subst up mt. run. rewrite He.
  assert (E : (cl - timestamp e >? cached_ttl e) = false).
  { rewrite Z.gtb_ltb. now apply Z.ltb_ge. }
  run. rewrite E. reflexivity.
Qed.

(** The world in which [loadCachedData] starts its fetch: unchanged when
    there is no entry, with the expired entry shown as stale when there is
    one and the option asks for it. *)
Definition before_fetch (w : World (T := T)) : World (T := T) :=
  match entries w !! cacheKey key with
  | Some e =>
      if staleWhileRevalidate options then
        mkWorld (entries w) (pending w) (storage_up w) (clock w)
                (fetcher_calls w) (requests w)
                (mkState (Some (cached_data e)) (isLoading (hook w)) true
                         (isOffline (hook w)) (error (hook w)))
                (isMounted w)
      else w
  | None => w
  end.

Lemma loadCachedData_fetches (r : Render) (w : World) :
  storage_up w = true ->
  isMounted w = true ->
  (forall e, entries w !! cacheKey key = Some e ->
             cached_ttl e < clock w - timestamp e) ->
  snd (loadCachedData truthy fetcher key options r w)
  = snd (fetchAndCache truthy fetcher key options r (before_fetch w)).
Proof.
  intros Hs Hm Hexp.
  assert (Hok : forall w0 : World,
            fst (fetchAndCache truthy fetcher key options r w0) = Returned tt).
  { intros [en pe up cl fc rq hk mt]. run.
    destruct (settled (fetcher fc)), mt, up, (offline_with_data truthy r);
      reflexivity. }
  destruct w as [en pe up cl fc rq hk mt]. cbn in Hs, Hm, Hexp. subst up mt.
  unfold before_fetch, loadCachedData, try_catch, bind, getItem, storage_call,
    Date_now, when_mounted, setData, setIsStale, set_hook, modify, ret.
  fields.
  destruct (en !! cacheKey key) as [e|] eqn:He; fields.
  - specialize (Hexp e eq_refl).
    assert (E : (cl - timestamp e >? cached_ttl e) = true).
    { rewrite Z.gtb_ltb. now apply Z.ltb_lt. }
    rewrite E. fields.
    destruct (staleWhileRevalidate options); fields;
      match goal with
      | |- snd (let (_, _) := ?f ?x in _) = _ =>
          pose proof (Hok x) as Hx; destruct (f x) as [res wx]
      end; cbn in Hx; subst res; reflexivity.
  - match goal with
    | |- snd (let (_, _) := ?f ?x in _) = _ =>
        pose proof (Hok x) as Hx; destruct (f x) as [res wx]
    end; cbn in Hx; subst res; reflexivity.
Qed.

Lemma before_fetch_fields (w : World) :
  storage_up (before_fetch w) = storage_up w /\
  isMounted (before_fetch w) = isMounted w /\
  fetcher_calls (before_fetch w) = fetcher_calls w /\
  clock (before_fetch w) = clock w /\
  entries (before_fetch w) = entries w /\
  pending (before_fetch w) = pending w /\
  requests (before_fetch w) = requests w.
Proof.
  unfold before_fetch.
  destruct (entries w !! cacheKey key);
    [destruct (staleWhileRevalidate options)|]; repeat split.
Qed.

(** C3, amended: on a mounted hook that is not marked offline, a read
    (the effect running [loadCachedData] as the current render created it)
    that finds the entry under the key past its time to live and whose
    fetcher rejects, with stale-while-revalidate on, ends with the cached
    data, [isStale] set and loading over, with the error of the fetcher in
    the [error] cell beside the data, and leaves the entry as it was. *)
Theorem C3_stale_data_is_kept_beside_the_error
  (w : World) (e : CachedData) (err : Error) :
  storage_up w = true ->
  isMounted w = true ->
  isOffline (hook w) = false ->
  entries w !! cacheKey key = Some e ->
  cached_ttl e < clock w - timestamp e ->
  settled (fetcher (fetcher_calls w)) = inl err ->
  staleWhileRevalidate options = true ->
  let w' :=
    snd (loadCachedData truthy fetcher key options (render_of (hook w)) w) in
  st_data (hook w') = Some (cached_data e) /\
  isStale (hook w') = true /\
  isLoading (hook w') = false /\
  error (hook w') = Some err /\
  isOffline (hook w') = false /\
  fetcher_calls w' = S (fetcher_calls w) /\
  entries w' = entries w.
Proof.
  intros Hs Hm Hon He Hexp Hf Hswr w'. subst w'.
  rewrite loadCachedData_fetches; try assumption.
  2:{ intros e' He'. rewrite He in He'. now injection He' as <-. }
  destruct (before_fetch_fields w) as (B1 & B2 & B3 & B4 & B5 & _).
  rewrite (fetchAndCache_rejected (render_of (hook w)) (before_fetch w) err);
    [|now rewrite B2 | now rewrite B3].
  unfold before_fetch. rewrite He, Hswr. fields.
  unfold offline_with_data, render_of. cbn [seen_isOffline].
  rewrite Hon. cbn [andb]. fields. repeat split.
Qed.

End Reads.

(** Reads on mount.  A read on mount that finds no fresh entry and whose
    fetcher fulfils with [v] ends with [v] as data, not stale, without
    error and not loading, after one call of the fetcher; the entry
    persisted under the key holds [v], the clock read when the fetcher had
    settled and the time to live of the options.  A later read on mount of
    the key, no later than that time to live after the capture, ends with
    the same data, not stale and without error, and does not call its
    fetcher. *)
Lemma mount_read_fulfilled_is_fresh_and_persisted
  {T : Type} (truthy : T -> bool) (fetcher : nat -> Fetched)
  (key : string) (options : CacheOptions) (w : World) (v : T) :
  storage_up w = true ->
  (forall e, entries w !! cacheKey key = Some e ->
             cached_ttl e < clock w - timestamp e) ->
  settled (fetcher (fetcher_calls w)) = inr v ->
  let w1 := read truthy fetcher key options w in
  let captured := clock w + elapsed (fetcher (fetcher_calls w)) in
  st_data (hook w1) = Some v /\
  isStale (hook w1) = false /\
  error (hook w1) = None /\
  isLoading (hook w1) = false /\
  fetcher_calls w1 = S (fetcher_calls w) /\
  entries w1 !! cacheKey key = Some (mkCached v captured (ttl options)) /\
  forall (truthy2 : T -> bool) (fetcher2 : nat -> Fetched)
         (options2 : CacheOptions) (w2 : World),
    storage_up w2 = true ->
    entries w2 !! cacheKey key = entries w1 !! cacheKey key ->
    clock w2 - captured <= ttl options ->
    let w3 := read truthy2 fetcher2 key options2 w2 in
    st_data (hook w3) = Some v /\
    isStale (hook w3) = false /\
    error (hook w3) = None /\
    isLoading (hook w3) = false /\
    fetcher_calls w3 = fetcher_calls w2.
Proof.
  intros Hs Hexp Hf w1 captured.
  assert (E1 : w1 = mkWorld
                 (<[cacheKey key := mkCached v captured (ttl options)]> (entries w))
                 (pending w) true captured (S (fetcher_calls w)) (requests w)
                 (mkState (Some v) false false false None) true).
  { subst w1. unfold read.
    rewrite loadCachedData_fetches; try assumption; try reflexivity.
    destruct (before_fetch_fields key options (mount w))
      as (B1 & B2 & B3 & B4 & B5 & B6 & B7).
    rewrite (fetchAndCache_fulfilled truthy fetcher key options _
               (before_fetch key options (mount w)) v);
      [| now rewrite B1 | now rewrite B2 | now rewrite B3].
    rewrite B3, B4, B5, B6, B7. unfold before_fetch, mount. fields.
    destruct (entries w !! cacheKey key);
      [destruct (staleWhileRevalidate options)|]; reflexivity. }
  rewrite E1. fields. rewrite lookup_insert_eq.
  do 6 (split; [reflexivity|]).
  intros truthy2 fetcher2 options2 w2 Hs2 He2 Hin. unfold read.
  rewrite (loadCachedData_fresh truthy2 fetcher2 key options2 _ (mount w2)
             (mkCached v captured (ttl options)));
    try assumption; try reflexivity.
  fields. repeat split.
Qed.

(** Reads after a change of key.  The effect cleanup has cleared
    [isMounted.current], so every guarded setter is skipped. *)
Lemma loadCachedData_unmounted_fetches
  {T : Type} (truthy : T -> bool) (fetcher : nat -> Fetched)
  (key : string) (options : CacheOptions) (r : Render) (w : World) (v : T) :
  storage_up w = true ->
  isMounted w = false ->
  (forall e, entries w !! cacheKey key = Some e ->
             cached_ttl e < clock w - timestamp e) ->
  settled (fetcher (fetcher_calls w)) = inr v ->
  snd (loadCachedData truthy fetcher key options r w)
  = mkWorld
      (<[cacheKey key :=
           mkCached v (clock w + elapsed (fetcher (fetcher_calls w)))
                    (ttl options)]> (entries w))
      (pending w) true
      (clock w + elapsed (fetcher (fetcher_calls w)))
      (S (fetcher_calls w)) (requests w)
      (mkState (st_data (hook w)) true (isStale (hook w)) (isOffline (hook w))
               None)
      false.
Proof.
  intros Hs Hm Hexp Hf. destruct w as [en pe up cl fc rq hk mt].
  cbn in Hs, Hm, Hexp, Hf. subst up mt. run.
  destruct (en !! cacheKey key) as [e|] eqn:He; fields.
  - specialize (Hexp e eq_refl).
    assert (E : (cl - timestamp e >? cached_ttl e) = true).
    { rewrite Z.gtb_ltb. now apply Z.ltb_lt. }
    rewrite E. fields.
    destruct (staleWhileRevalidate options); fields; rewrite Hf; reflexivity.
  - rewrite Hf. reflexivity.
Qed.

Lemma loadCachedData_unmounted_fresh
  {T : Type} (truthy : T -> bool) (fetcher : nat -> Fetched)
  (key : string) (options : CacheOptions) (r : Render) (w : World)
  (e : CachedData) :
  storage_up w = true ->
  isMounted w = false ->
  entries w !! cacheKey key = Some e ->
  clock w - timestamp e <= cached_ttl e ->
  snd (loadCachedData truthy fetcher key options r w) = w.
Proof.
  intros Hs Hm He Hfresh. destruct w as [en pe up cl fc rq hk mt].
  cbn in Hs, Hm, He, Hfresh. subst up mt. run. rewrite He.
  assert (E : (cl - timestamp e >? cached_ttl e) = false).
  { rewrite Z.gtb_ltb. now apply Z.ltb_ge. }
  run. rewrite E. reflexivity.
Qed.

(** C9, where the code departs from it: the read that the effect makes
    after a change of key, finding no fresh entry under the new key and
    with a fetcher that fulfils with [v], calls the fetcher once and
    persists [v] with its capture time and time to live, but leaves the
    data and [isStale] cells as they were (the data of the former key, and
    its staleness) and leaves [isLoading] set; a later read of that kind
    within the time to live does not call its fetcher, and changes no
    state cell either. *)
Theorem C9_read_after_key_change_updates_no_cell
  {T : Type} (truthy : T -> bool) (fetcher : nat -> Fetched)
  (key : string) (options : CacheOptions) (w : World) (v : T) :
  storage_up w = true ->
  (forall e, entries w !! cacheKey key = Some e ->
             cached_ttl e < clock w - timestamp e) ->
  settled (fetcher (fetcher_calls w)) = inr v ->
  let w1 := read_after_key_change truthy fetcher key options w in
  let captured := clock w + elapsed (fetcher (fetcher_calls w)) in
  entries w1 !! cacheKey key = Some (mkCached v captured (ttl options)) /\
  fetcher_calls w1 = S (fetcher_calls w) /\
  st_data (hook w1) = st_data (hook w) /\
  isStale (hook w1) = isStale (hook w) /\
  isLoading (hook w1) = true /\
  error (hook w1) = None /\
  isMounted w1 = false /\
  forall (truthy2 : T -> bool) (fetcher2 : nat -> Fetched)
         (options2 : CacheOptions) (w2 : World),
    storage_up w2 = true ->
    entries w2 !! cacheKey key = entries w1 !! cacheKey key ->
    clock w2 - captured <= ttl options ->
    let w3 := read_after_key_change truthy2 fetcher2 key options2 w2 in
    hook w3 = hook w2 /\
    fetcher_calls w3 = fetcher_calls w2.
Proof.
  intros Hs Hexp Hf w1 captured. subst w1. unfold read_after_key_change.
  rewrite (loadCachedData_unmounted_fetches truthy fetcher key options _
             (effect_cleanup w) v); try assumption; try reflexivity.
  unfold effect_cleanup. fields. rewrite lookup_insert_eq.
  do 7 (split; [reflexivity|]).
  intros truthy2 fetcher2 options2 w2 Hs2 He2 Hin.
  unfold read_after_key_change.
  rewrite (loadCachedData_unmounted_fresh truthy2 fetcher2 key options2 _
             (effect_cleanup w2) (mkCached v captured (ttl options)));
    try assumption; try reflexivity.
  split; reflexivity.
Qed.

(** ** Concrete reads *)

Definition string_truthy (s : string) : bool := JS.truthy_string s.

Definition unreachable (n : nat) : Fetched (T := string) :=
  mkFetched 30 (inl (FetchError "Network request failed")).

Definition profile_v2 (n : nat) : Fetched (T := string) :=
  mkFetched 30 (inr "profile v2"%string).

(** A store whose entry for the key [profile] was captured at time 0 with
    one second to live, five seconds later. *)
Definition aged_store : World (T := string) :=
  mkWorld {[ "offline_cache_profile"%string := mkCached "profile v1"%string 0 1000 ]}
          None true 5000 0 [] initial_state false.

(** C3, as the claim has it, fails on the error field: a read with the
    default options that finds an entry past its time to live and whose
    fetcher rejects ends with the cached data and [isStale] set, and with
    the error of the fetcher in the [error] cell, not [null]. *)
Lemma C3_error_is_set_beside_stale_data :
  let w := read string_truthy unreachable "profile" no_options aged_store in
  entries aged_store !! cacheKey "profile"
    = Some (mkCached "profile v1"%string 0 1000) /\
  1000 < clock aged_store - 0 /\
  settled (unreachable (fetcher_calls aged_store))
    = inl (FetchError "Network request failed") /\
  st_data (hook w) = Some "profile v1"%string /\
  isStale (hook w) = true /\
  error (hook w) = Some (FetchError "Network request failed") /\
  error (hook w) <> None.
Proof.
  vm_compute. repeat split. discriminate.
Qed.

(** The theorem of C3 at the read of [aged_store]. *)
Lemma C3_stale_data_is_kept_beside_the_error_witness :
  let w := read string_truthy unreachable "profile" no_options aged_store in
  st_data (hook w) = Some "profile v1"%string /\
  isStale (hook w) = true /\
  isLoading (hook w) = false /\
  error (hook w) = Some (FetchError "Network request failed").
Proof.
  pose proof (C3_stale_data_is_kept_beside_the_error
                string_truthy unreachable "profile" no_options
                (mount aged_store)
                (mkCached "profile v1"%string 0 1000)
                (FetchError "Network request failed")
                eq_refl eq_refl eq_refl eq_refl eq_refl eq_refl eq_refl) as H.
  cbv zeta in H. destruct H as (H1 & H2 & H3 & H4 & _).
  exact (conj H1 (conj H2 (conj H3 H4))).
Defined.

Definition empty_store : World (T := string) :=
  mkWorld ∅ None true 1000 0 [] initial_state false.

(** A first read on mount of an empty store. *)
Lemma mount_read_of_an_empty_store :
  let w1 := read string_truthy profile_v2 "profile" no_options empty_store in
  st_data (hook w1) = Some "profile v2"%string /\
  isStale (hook w1) = false /\
  error (hook w1) = None /\
  entries w1 !! "offline_cache_profile"%string
    = Some (mkCached "profile v2"%string 1030 300000).
Proof.
  assert (Hnone : forall e : CachedData (T := string),
            entries empty_store !! cacheKey "profile" = Some e ->
            cached_ttl e < clock empty_store - timestamp e).
  { intros e He. vm_compute in He. discriminate. }
  pose proof (mount_read_fulfilled_is_fresh_and_persisted
                string_truthy profile_v2 "profile" no_options
                empty_store "profile v2"%string eq_refl Hnone eq_refl) as H.
  cbv zeta in H. destruct H as (H1 & H2 & H3 & _ & _ & H6 & _).
  exact (conj H1 (conj H2 (conj H3 H6))).
Defined.

Definition settings_v1 (n : nat) : Fetched (T := string) :=
  mkFetched 30 (inr "settings v1"%string).

(** The hook as the read of [aged_store] leaves it: mounted on the key
    [profile], showing the stale entry beside the error. *)
Definition showing_stale_profile : World (T := string) :=
  read string_truthy unreachable "profile" no_options aged_store.

(** The theorem of C9 at a change of key from [profile] to [settings] on
    the hook that shows the stale profile: the settings are fetched and
    persisted, and the hook goes on showing the profile, stale and
    loading. *)
Lemma C9_read_after_key_change_updates_no_cell_witness :
  let w1 := read_after_key_change string_truthy settings_v1 "settings"
              no_options showing_stale_profile in
  entries w1 !! "offline_cache_settings"%string
    = Some (mkCached "settings v1"%string 5060 300000) /\
  fetcher_calls w1 = 2%nat /\
  st_data (hook w1) = Some "profile v1"%string /\
  isStale (hook w1) = true /\
  isLoading (hook w1) = true.
Proof.
  assert (Hnone : forall e : CachedData (T := string),
            entries showing_stale_profile !! cacheKey "settings" = Some e ->
            cached_ttl e < clock showing_stale_profile - timestamp e).
  { intros e He. vm_compute in He. discriminate. }
  pose proof (C9_read_after_key_change_updates_no_cell
                string_truthy settings_v1 "settings" no_options
                showing_stale_profile "settings v1"%string
                eq_refl Hnone eq_refl) as H.
  cbv zeta in H. destruct H as (H1 & H2 & H3 & H4 & H5 & _).
  exact (conj H1 (conj H2 (conj H3 (conj H4 H5)))).
Defined.

(** ** The pending queue *)

Section Sync.

Context {T : Type}.
Variable backend : nat -> Reply.

(** A reply that leaves the operation in the queue: a response that is not
    [ok], or a network failure. *)
Definition refused (r : Reply) : bool :=
  match r with
  | Response true => false
  | Response false | NetworkFailure => true
  end.

(** The operations of [ops] whose replies, the backend having answered
    [base] requests before, are refused; in the order of [ops]. *)
Definition kept (base : nat) (ops : list PendingSyncOperation)
  : list PendingSyncOperation :=
  map fst (List.filter (fun p => refused (snd p))
             (combine ops (map backend (seq base (length ops))))).

Lemma kept_cons (base : nat) (op : PendingSyncOperation)
  (ops : list PendingSyncOperation) :
  kept base (op :: ops)
  = (if refused (backend base) then [op] else []) ++ kept (S base) ops.
Proof.
  unfold kept. cbn [length seq map combine List.filter snd].
  destruct (refused (backend base)); reflexivity.
Qed.

Definition with_requests (w : World (T := T))
  (rq : list PendingSyncOperation) : World (T := T) :=
  mkWorld (entries w) (pending w) (storage_up w) (clock w) (fetcher_calls w)
          rq (hook w) (isMounted w).

(** The body of the loop of [syncPendingOperations]. *)
Definition replay (operation : PendingSyncOperation)
  (remaining : list PendingSyncOperation)
  : M (T := T) (list PendingSyncOperation) :=
  try_catch
    (bind (fetch backend operation) (fun ok =>
       if negb ok then ret (remaining ++ [operation]) else ret remaining))
    (fun _ => ret (remaining ++ [operation])).

Lemma replay_all (ops : list PendingSyncOperation) :
  forall (acc : list PendingSyncOperation) (w : World (T := T)),
    for_of ops replay acc w
    = (Returned (acc ++ kept (length (requests w)) ops),
       with_requests w (requests w ++ ops)).
Proof.
  induction ops as [|op ops IH]; intros acc w.
  - unfold kept, with_requests. cbn. rewrite !app_nil_r.
    destruct w; reflexivity.
  - cbn [for_of]. unfold bind at 1.
    assert (E : replay op acc w
                = (Returned (acc ++ if refused (backend (length (requests w)))
                                    then [op] else []),
                   with_requests w (requests w ++ [op]))).
    { unfold replay, try_catch, bind, fetch, ret, with_requests.
      destruct (backend (length (requests w))) as [[|]|]; cbn;
        now rewrite ?app_nil_r. }
    rewrite E, IH, kept_cons. unfold with_requests. fields.
    rewrite length_app. cbn [length]. rewrite Nat.add_1_r.
    now rewrite <- !app_assoc.
Qed.

Lemma kept_sublist (base : nat) (ops : list PendingSyncOperation) :
  sublist (kept base ops) ops.
Proof.
  revert base. induction ops as [|op ops IH]; intros base.
  - constructor.
  - rewrite kept_cons. destruct (refused (backend base)); cbn [app].
    + apply sublist_skip, IH.
    + apply sublist_cons, IH.
Qed.

Lemma kept_all_refused (base : nat) (ops : list PendingSyncOperation) :
  (forall k, (k < length ops)%nat -> refused (backend (base + k)) = true) ->
  kept base ops = ops.
Proof.
  revert base. induction ops as [|op ops IH]; intros base H; [reflexivity|].
  rewrite kept_cons.
  rewrite <- (Nat.add_0_r base) at 1. rewrite H by (cbn; lia).
  cbn [app]. f_equal. apply IH. intros k Hk.
  replace (S base + k)%nat with (base + S k)%nat by lia.
  apply H. cbn. lia.
Qed.

Lemma kept_none_refused (base : nat) (ops : list PendingSyncOperation) :
  (forall k, (k < length ops)%nat -> refused (backend (base + k)) = false) ->
  kept base ops = [].
Proof.
  revert base. induction ops as [|op ops IH]; intros base H; [reflexivity|].
  rewrite kept_cons.
  rewrite <- (Nat.add_0_r base) at 1. rewrite H by (cbn; lia).
  cbn [app]. apply IH. intros k Hk.
  replace (S base + k)%nat with (base + S k)%nat by lia.
  apply H. cbn. lia.
Qed.

Lemma syncPendingOperations_world
  (w : World (T := T)) (ops : list PendingSyncOperation) :
  storage_up w = true ->
  pending w = Some ops ->
  snd (syncPendingOperations backend w)
  = mkWorld (entries w)
            (match kept (length (requests w)) ops with
             | [] => None
             | (_ :: _) as remaining => Some remaining
             end)
            true (clock w) (fetcher_calls w) (requests w ++ ops) (hook w)
            (isMounted w).
Proof.
  intros Hs Hp. unfold syncPendingOperations.
  fold replay. unfold try_catch at 1. unfold bind at 1.
  unfold getPending, storage_call. rewrite Hs, Hp.
  unfold bind at 1. rewrite replay_all. cbn [app].
  unfold setPending, removePending, storage_call, with_requests.
  destruct (kept (length (requests w)) ops) as [|op' rest];
    cbn [length Nat.ltb Nat.leb]; fields; rewrite Hs; reflexivity.
Qed.

(** C4: with the storage up and [ops] in the persisted queue,
    [syncPendingOperations] sends one request per operation, in the order
    of the queue and whatever the earlier replies were; the queue it
    leaves holds the operations whose reply was refused (a response that
    is not ok, or a network failure), in their original order, and the key
    is removed when none is left.  So a queue whose replies are all
    refused is left as it was, a queue whose replies are all ok is
    emptied, and an operation queued by [queueOfflineOperation] goes to
    the end of the queue. *)
Theorem C4_sync_keeps_the_refused_operations_in_order
  (w : World (T := T)) (ops : list PendingSyncOperation) :
  storage_up w = true ->
  pending w = Some ops ->
  let w' := snd (syncPendingOperations backend w) in
  let base := length (requests w) in
  requests w' = requests w ++ ops /\
  queue w' = kept base ops /\
  sublist (queue w') ops /\
  (pending w' = None <-> kept base ops = []) /\
  ((forall k, (k < length ops)%nat -> refused (backend (base + k)) = true) ->
   queue w' = ops) /\
  ((forall k, (k < length ops)%nat -> refused (backend (base + k)) = false) ->
   queue w' = []) /\
  (forall (op : Operation) (random : string),
     queue (snd (queueOfflineOperation op random w))
     = ops ++ [mkPending (pretty (clock w) ++ "_" ++ random) op (clock w)]).
Proof.
  intros Hs Hp w' base. subst w' base.
  rewrite (syncPendingOperations_world w ops Hs Hp). unfold queue. fields.
  assert (Q : default [] (match kept (length (requests w)) ops with
                          | [] => None
                          | (_ :: _) as remaining => Some remaining
                          end) = kept (length (requests w)) ops).
  { destruct (kept (length (requests w)) ops); reflexivity. }
  rewrite Q.
  split; [reflexivity|]. split; [reflexivity|].
  split; [apply kept_sublist|]. split.
  { destruct (kept (length (requests w)) ops); split; congruence. }
  split; [apply kept_all_refused|]. split; [apply kept_none_refused|].
  intros op random. run. rewrite Hs, Hp. fields. rewrite Hs. reflexivity.
Qed.

End Sync.

(** *** A concrete pass *)

Definition op_a : PendingSyncOperation :=
  mkPending "1000_a" (mkOperation POST "/targets" "{}") 1000.
Definition op_b : PendingSyncOperation :=
  mkPending "1001_b" (mkOperation PUT "/molecules/7" "{}") 1001.
Definition op_c : PendingSyncOperation :=
  mkPending "1002_c" (mkOperation DELETE "/runs/3" "null") 1002.

(** The network fails for the first request, the second is accepted and
    the third is answered with an error status. *)
Definition flaky (n : nat) : Reply :=
  match n with
  | 0%nat => NetworkFailure
  | 1%nat => Response true
  | _ => Response false
  end.

Definition three_pending : World (T := string) :=
  mkWorld ∅ (Some [op_a; op_b; op_c]) true 2000 0 [] initial_state true.

(** The theorem of C4 at three queued operations and a flaky network. *)
Lemma C4_sync_keeps_the_refused_operations_in_order_witness :
  let w' := snd (syncPendingOperations flaky three_pending) in
  requests w' = [op_a; op_b; op_c] /\
  queue w' = [op_a; op_c].
Proof.
  pose proof (C4_sync_keeps_the_refused_operations_in_order
                flaky three_pending [op_a; op_b; op_c] eq_refl eq_refl) as H.
  cbv zeta in H. destruct H as (H1 & H2 & _).
  exact (conj H1 H2).
Defined.

End OfflineCacheFacts.

(** * Further properties of the molecule viewer *)

From stdpp Require Import sorting.

Module ViewerFacts.

Import Molecule MoleculeFacts.

#[local] Open Scope nat_scope.

(** ** The scene as a whole *)

(** X1: the viewer never takes the error path on its bond loop: whatever
    it is given, it hands a group to the scene, with one mesh per atom and,
    unless the style is space-fill, one more per bond. *)
Theorem viewer_always_loads (props : MoleculeViewerProps) :
  let m := parseMoleculeData (inputAtoms props) (pdbData props) in
  exists group,
    onContextCreate props = Loaded group /\
    length group
    = length (atoms m) +
      match default ball_stick (style props) with
      | space_fill => 0
      | _ => length (bonds m)
      end.
Proof.
  intros m. pose proof (onContextCreate_group props) as H.
  cbv zeta in H. fold m in H. destruct H as [E L].
  eexists. split; [exact E|].
  rewrite length_app, length_map.
  destruct (default ball_stick (style props)); cbn [length]; lia.
Qed.

(** ** Inputs without atoms *)

Lemma filter_none {A : Type} (f : A -> bool) (l : list A) :
  (forall a, In a l -> f a = false) -> filter f l = [].
Proof.
  induction l as [|a l IH]; intros H; [reflexivity|].
  rewrite filter_cons. destruct (decide (f a)) as [E|_].
  - apply Is_true_true in E. rewrite (H a (or_introl eq_refl)) in E.
    discriminate.
  - apply IH. intros a' Ha'. apply H. now right.
Qed.

(** X3: an atom list or a text that is given is used even when it holds
    no atom: an empty atom list, and a non-empty text none of whose lines
    starts with ATOM or HETATM, both give the empty molecule and an empty
    scene, not the built-in molecule. *)
Theorem inputs_without_atoms_give_an_empty_scene :
  (forall b s p st,
     parseMoleculeData (Some []) p = mkMolecule [] [] /\
     onContextCreate (mkProps (Some []) b s p st) = Loaded []) /\
  (forall (text : string) b s st,
     text <> EmptyString ->
     (forall line, In line (JS.split_lines text) -> is_record line = false) ->
     parseMoleculeData None (Some text) = mkMolecule [] [] /\
     onContextCreate (mkProps None b s (Some text) st) = Loaded []).
Proof.
  split.
  - intros b s p st. split; [reflexivity|].
    destruct st as [[]|]; reflexivity.
  - intros text b s st Hne Hnone.
    assert (E : parseMoleculeData None (Some text) = mkMolecule [] []).
    { destruct text as [|ch t]; [contradiction|].
      unfold parseMoleculeData.
      rewrite parse_pdb_map_filter, (filter_none _ _ Hnone). reflexivity. }
    split; [exact E|].
    unfold onContextCreate. cbn [inputAtoms pdbData style]. rewrite E.
    destruct st as [[]|]; reflexivity.
Qed.

(** The theorem of X3 at a file of two lines without record. *)
Lemma inputs_without_atoms_give_an_empty_scene_witness :
  let text := ("HEADER    EMPTY" ++ nl ++ "END")%string in
  text <> EmptyString /\
  parseMoleculeData None (Some text) = mkMolecule [] [] /\
  onContextCreate (mkProps None None None (Some text) None) = Loaded [].
Proof.
  assert (Hne : ("HEADER    EMPTY" ++ nl ++ "END")%string <> EmptyString)
    by (vm_compute; discriminate).
  split; [exact Hne|].
  apply (proj2 inputs_without_atoms_give_an_empty_scene
           ("HEADER    EMPTY" ++ nl ++ "END")%string None None None Hne).
  intros line Hin. vm_compute in Hin.
  destruct Hin as [<-|[<-|[]]]; reflexivity.
Defined.

(** ** The order and the number of the inferred bonds *)

(** The order of the double loop: by first index, then by second. *)
Definition bond_lt (b b' : Bond) : Prop :=
  atom1 b < atom1 b' \/ (atom1 b = atom1 b' /\ atom2 b < atom2 b').

Lemma bonds_from_sorted (l : list Atom) (i : nat) :
  StronglySorted bond_lt (bonds_from l i).
Proof.
  unfold bonds_from.
  generalize (i + 1) as a, (length l - (i + 1)) as k.
  intros a k. revert a. induction k as [|k IH]; intros a; cbn [seq flat_map].
  - constructor.
  - apply StronglySorted_app_2; [| |apply IH].
    + intros b b' Hb Hb'. apply list_elem_of_In in Hb, Hb'.
      destruct (bonded l i a); [|contradiction].
      destruct Hb as [<-|[]].
      apply in_flat_map in Hb'. destruct Hb' as (j & Hj & Hb').
      apply in_seq in Hj.
      destruct (bonded l i j); [|contradiction].
      destruct Hb' as [<-|[]]. right. cbn. lia.
    + destruct (bonded l i a); repeat constructor.
Qed.

Lemma generate_bonds_sorted (l : list Atom) :
  StronglySorted bond_lt (generate_bonds l).
Proof.
  rewrite generate_bonds_flat.
  generalize 0 as a, (length l) as k.
  intros a k. revert a. induction k as [|k IH]; intros a; cbn [seq flat_map].
  - constructor.
  - apply StronglySorted_app_2; [|apply bonds_from_sorted|apply IH].
    intros b b' Hb Hb'. apply list_elem_of_In in Hb, Hb'.
    apply in_bonds_from in Hb. apply in_flat_map in Hb'.
    destruct Hb' as (i' & Hi' & Hb'). apply in_seq in Hi'.
    apply in_bonds_from in Hb'. left. lia.
Qed.

Lemma length_bonds_from (l : list Atom) (i : nat) :
  length (bonds_from l i) <= length l - (i + 1).
Proof.
  unfold bonds_from.
  generalize (i + 1) as a, (length l - (i + 1)) as k.
  intros a k. revert a. induction k as [|k IH]; intros a; cbn [seq flat_map].
  - cbn. lia.
  - rewrite length_app. specialize (IH (S a)).
    destruct (bonded l i a); cbn [length]; lia.
Qed.

Lemma length_bonds_tail (l : list Atom) (k : nat) :
  k <= length l ->
  2 * length (flat_map (bonds_from l) (seq (length l - k) k)) <= k * (k - 1).
Proof.
  induction k as [|k IH]; intros Hk; [cbn; lia|].
  cbn [seq flat_map]. rewrite length_app.
  pose proof (length_bonds_from l (length l - S k)) as Hi.
  replace (S (length l - S k)) with (length l - k) by lia.
  specialize (IH ltac:(lia)). nia.
Qed.

(** X4: the inferred bonds come out ordered by first index, then by
    second, each strictly after the one before; and n atoms get at most
    n (n - 1) / 2 of them. *)
Theorem inferred_bonds_are_ordered_and_bounded (l : list Atom) :
  StronglySorted bond_lt (generate_bonds l) /\
  2 * length (generate_bonds l) <= length l * (length l - 1).
Proof.
  split; [apply generate_bonds_sorted|].
  rewrite generate_bonds_flat.
  pose proof (length_bonds_tail l (length l) (le_n _)) as H.
  now rewrite Nat.sub_diag in H.
Qed.

(** ** Atoms added, atoms renamed *)

Lemma bonded_app_l (l l' : list Atom) (i j : nat) :
  i < length l -> j < length l ->
  bonded (l ++ l') i j = bonded l i j.
Proof.
  intros Hi Hj. unfold bonded. now rewrite !lookup_app_l by assumption.
Qed.

(** X5: atoms appended to the list leave the bonds among the earlier atoms
    as they were, with the same indices: the bonds of the longer list
    whose ends are both earlier atoms are exactly the bonds of the list
    before. *)
Theorem appended_atoms_keep_the_bonds (l l' : list Atom) (b : Bond) :
  In b (generate_bonds l) <->
  In b (generate_bonds (l ++ l')) /\ atom2 b < length l.
Proof.
  rewrite !in_generate_bonds, length_app. split.
  - intros (H1 & H2 & H3). repeat split; try lia; try assumption.
    rewrite bonded_app_l by lia. exact H3.
  - intros ((H1 & H2 & H3) & H4). repeat split; try lia; try assumption.
    rewrite bonded_app_l in H3 by lia. exact H3.
Qed.

Lemma distance_position (a b a' b' : Atom) :
  position a = position a' -> position b = position b' ->
  distance a b = distance a' b'.
Proof.
  unfold position, distance. intros Ha Hb.
  injection Ha as -> -> ->. injection Hb as -> -> ->. reflexivity.
Qed.

Lemma bonded_positions (l l' : list Atom) (i j : nat) :
  map position l = map position l' ->
  bonded l i j = bonded l' i j.
Proof.
  intros H. unfold bonded.
  assert (L : forall k, position <$> (l !! k) = position <$> (l' !! k)).
  { intros k. rewrite <- !list_lookup_fmap. unfold fmap, list_fmap.
    change (map position l !! k = map position l' !! k). now rewrite H. }
  pose proof (L i) as Li. pose proof (L j) as Lj.
  destruct (l !! i) as [ai|], (l' !! i) as [ai'|]; try discriminate;
    destruct (l !! j) as [aj|], (l' !! j) as [aj'|]; try discriminate;
    try reflexivity.
  assert (Pi : position ai = position ai') by (cbn in Li; congruence).
  assert (Pj : position aj = position aj') by (cbn in Lj; congruence).
  now rewrite (distance_position ai aj ai' aj' Pi Pj).
Qed.

(** X6: bond inference reads the positions only: two atom lists with the
    same positions, whatever their elements, get the same bonds. *)
Theorem bonds_depend_on_positions_only (l l' : list Atom) :
  map position l = map position l' ->
  generate_bonds l = generate_bonds l'.
Proof.
  intros H. rewrite !generate_bonds_flat.
  assert (Hlen : length l = length l').
  { rewrite <- (length_map position l), H. apply length_map. }
  rewrite <- Hlen. apply flat_map_ext. intros i.
  unfold bonds_from. rewrite <- Hlen. apply flat_map_ext. intros j.
  now rewrite (bonded_positions l l' i j H).
Qed.

(** The theorem of X6 at water and at the same positions all named X. *)
Lemma bonds_depend_on_positions_only_witness :
  generate_bonds [mkAtom "O" 0 0 0; mkAtom "H" 0.96 0 0; mkAtom "H" (-0.24) 0.93 0]
  = generate_bonds [mkAtom "X" 0 0 0; mkAtom "X" 0.96 0 0; mkAtom "X" (-0.24) 0.93 0].
Proof.
  apply bonds_depend_on_positions_only. reflexivity.
Defined.

(** ** Structure files in parts, and records cut short *)

Lemma split_lines_app (t1 t2 : string) :
  JS.split_lines (t1 ++ nl ++ t2)%string
  = JS.split_lines t1 ++ JS.split_lines t2.
Proof.
  induction t1 as [|ch t1 IH].
  - reflexivity.
  - change ((String ch t1 ++ nl ++ t2)%string)
      with (String ch (t1 ++ nl ++ t2)%string).
    cbn [JS.split_lines]. rewrite IH.
    destruct (Ascii.eqb ch JS.newline); [reflexivity|].
    pose proof (split_lines_not_nil t1) as Hne.
    destruct (JS.split_lines t1); [contradiction | reflexivity].
Qed.

(** X7: parsing is line by line: the atoms of two texts joined by a line
    feed are the atoms of the first followed by the atoms of the second,
    and that is what [parseMoleculeData] returns for the joined text. *)
Theorem parsing_is_line_by_line (t1 t2 : string) :
  parse_pdb (t1 ++ nl ++ t2)%string = parse_pdb t1 ++ parse_pdb t2 /\
  atoms (parseMoleculeData None (Some (t1 ++ nl ++ t2)%string))
  = parse_pdb t1 ++ parse_pdb t2.
Proof.
  assert (E : parse_pdb (t1 ++ nl ++ t2)%string = parse_pdb t1 ++ parse_pdb t2).
  { rewrite !parse_pdb_map_filter, split_lines_app, filter_app.
    apply map_app. }
  split; [exact E|]. rewrite <- E.
  destruct (t1 ++ nl ++ t2)%string eqn:Et; [|reflexivity].
  destruct t1; discriminate.
Qed.

Lemma substring_past_the_end (n m : nat) (s : string) :
  String.length s <= n -> String.substring n m s = EmptyString.
Proof.
  revert n. induction s as [|ch s IH]; intros n Hn.
  - destruct n, m; reflexivity.
  - destruct n as [|n]; [cbn in Hn; lia|].
    cbn [String.substring]. apply IH. cbn in Hn. lia.
Qed.

Lemma field_past_the_end (a b : nat) (line : string) :
  a <= b -> String.length line <= a ->
  PrimFloat.is_nan (JS.parseFloat (JS.substring a b line)) = true.
Proof.
  intros Hab Hlen. unfold JS.substring.
  rewrite Nat.min_l, Nat.max_r by lia.
  now rewrite substring_past_the_end.
Qed.

Lemma split_lines_one_line (line : string) :
  has_newline line = false -> JS.split_lines line = [line].
Proof.
  unfold has_newline. induction line as [|ch t IH]; [reflexivity|].
  cbn [list_ascii_of_string existsb JS.split_lines].
  rewrite orb_false_iff. intros [E Ht].
  rewrite Ascii.eqb_sym, E, (IH Ht). reflexivity.
Qed.

(** X8: a record line cut short is not skipped: a line that starts with
    ATOM or HETATM always gives an atom, and each coordinate whose columns
    lie past the end of the line (x from 30, y from 38, z from 46) is
    [NaN]. *)
Theorem short_records_give_NaN_coordinates (line : string) :
  is_record line = true ->
  has_newline line = false ->
  parse_pdb line = [parse_record line] /\
  (String.length line <= 30 ->
   PrimFloat.is_nan (x (parse_record line)) = true) /\
  (String.length line <= 38 ->
   PrimFloat.is_nan (y (parse_record line)) = true) /\
  (String.length line <= 46 ->
   PrimFloat.is_nan (z (parse_record line)) = true).
Proof.
  intros Hrec Hnl. split.
  - rewrite parse_pdb_map_filter, (split_lines_one_line line Hnl).
    rewrite filter_cons, filter_nil.
    destruct (decide (is_record line)) as [_|E]; [reflexivity|].
    rewrite Hrec in E. now destruct E.
  - repeat split; intros Hlen; unfold parse_record; cbn [x y z];
      apply field_past_the_end; lia.
Qed.

(** The theorem of X8 at a record that stops after the x field. *)
Lemma short_records_give_NaN_coordinates_witness :
  let line := "ATOM      1  N   ALA A   1      11.104"%string in
  parse_pdb line = [parse_record line] /\
  x (parse_record line) = 11.104%float /\
  PrimFloat.is_nan (y (parse_record line)) = true /\
  PrimFloat.is_nan (z (parse_record line)) = true.
Proof.
  pose proof (short_records_give_NaN_coordinates
                "ATOM      1  N   ALA A   1      11.104"%string
                eq_refl eq_refl) as (H1 & _ & H3 & H4).
  split; [exact H1|]. split; [vm_compute; reflexivity|].
  split; [apply H3 | apply H4]; vm_compute; lia.
Defined.

(** ** Coordinates that are not numbers *)

Lemma SFeqb_refl (s : spec_float) : s <> S754_nan -> SFeqb s s = true.
Proof.
  intros H. destruct s as [sg|sg| |sg m e];
    try (destruct sg; reflexivity); try contradiction.
  unfold SFeqb, SFcompare.
  destruct sg; rewrite Z.compare_refl, ?Pos.compare_refl; reflexivity.
Qed.

Lemma is_nan_eq (f : float) : PrimFloat.is_nan f = true -> f = PrimFloat.nan.
Proof.
  unfold PrimFloat.is_nan. rewrite FloatAxioms.eqb_spec. intros H.
  apply FloatAxioms.Prim2SF_inj. change (Prim2SF PrimFloat.nan) with S754_nan.
  destruct (Prim2SF f) eqn:E; try reflexivity;
    rewrite SFeqb_refl in H by discriminate; discriminate.
Qed.

Lemma sub_nan_l (f : float) : (PrimFloat.nan - f)%float = PrimFloat.nan.
Proof.
  apply FloatAxioms.Prim2SF_inj. rewrite FloatAxioms.sub_spec.
  change (Prim2SF PrimFloat.nan) with S754_nan. reflexivity.
Qed.

Lemma sub_nan_r (f : float) : (f - PrimFloat.nan)%float = PrimFloat.nan.
Proof.
  apply FloatAxioms.Prim2SF_inj. rewrite FloatAxioms.sub_spec.
  change (Prim2SF PrimFloat.nan) with S754_nan.
  destruct (Prim2SF f); reflexivity.
Qed.

Lemma add_nan_l (f : float) : (PrimFloat.nan + f)%float = PrimFloat.nan.
Proof.
  apply FloatAxioms.Prim2SF_inj. rewrite FloatAxioms.add_spec.
  change (Prim2SF PrimFloat.nan) with S754_nan. reflexivity.
Qed.

Lemma add_nan_r (f : float) : (f + PrimFloat.nan)%float = PrimFloat.nan.
Proof.
  apply FloatAxioms.Prim2SF_inj. rewrite FloatAxioms.add_spec.
  change (Prim2SF PrimFloat.nan) with S754_nan.
  destruct (Prim2SF f); reflexivity.
Qed.

Definition has_nan (a : Atom) : bool :=
  PrimFloat.is_nan (x a) || PrimFloat.is_nan (y a) || PrimFloat.is_nan (z a).

Lemma distance_nan (a b : Atom) :
  has_nan a = true \/ has_nan b = true ->
  (distance a b <? 1.9)%float = false.
Proof.
  unfold has_nan. rewrite !orb_true_iff. unfold distance.
  intros [[[H|H]|H]|[[H|H]|H]]; apply is_nan_eq in H; rewrite H;
    rewrite ?sub_nan_l, ?sub_nan_r;
    change (PrimFloat.nan * PrimFloat.nan)%float with PrimFloat.nan;
    rewrite ?add_nan_l, ?add_nan_r, ?add_nan_l; reflexivity.
Qed.

(** X9: an atom with a coordinate that is [NaN], as a record cut short or
    with an unreadable field gives, is never bonded: both ends of every
    inferred bond have three coordinates that are numbers. *)
Theorem atoms_with_NaN_are_never_bonded
  (l : list Atom) (b : Bond) (a : Atom) :
  In b (generate_bonds l) ->
  l !! atom1 b = Some a \/ l !! atom2 b = Some a ->
  PrimFloat.is_nan (x a) = false /\
  PrimFloat.is_nan (y a) = false /\
  PrimFloat.is_nan (z a) = false.
Proof.
  intros Hb Ha. apply in_generate_bonds in Hb.
  destruct Hb as (_ & _ & Hb). unfold bonded in Hb.
  destruct (l !! atom1 b) as [a1|] eqn:E1; [|discriminate].
  destruct (l !! atom2 b) as [a2|] eqn:E2; [|discriminate].
  assert (Hn : has_nan a = false).
  { destruct (has_nan a) eqn:En; [|reflexivity].
    rewrite distance_nan in Hb; [discriminate|].
    destruct Ha as [Ha|Ha]; injection Ha as ->; auto. }
  unfold has_nan in Hn. rewrite !orb_false_iff in Hn. tauto.
Qed.

(** The theorem of X9 at two carbon atoms one unit apart. *)
Lemma atoms_with_NaN_are_never_bonded_witness :
  In (mkBond 0 1 1) (generate_bonds [at_x "C" 0; at_x "C" 1]) /\
  PrimFloat.is_nan (x (at_x "C" 1)) = false.
Proof.
  assert (Hin : In (mkBond 0 1 1) (generate_bonds [at_x "C" 0; at_x "C" 1]))
    by (vm_compute; left; reflexivity).
  split; [exact Hin|].
  exact (proj1 (atoms_with_NaN_are_never_bonded
                  [at_x "C" 0; at_x "C" 1] (mkBond 0 1 1) (at_x "C" 1)
                  Hin (or_intror eq_refl))).
Defined.

(** ** Colours and radii *)

Lemma own_color_truthy (e : string) (v : float) :
  JS.own ATOM_COLORS e = Some v -> JS.truthy (JS.Num v) = true.
Proof.
  unfold ATOM_COLORS. cbn [JS.own].
  repeat (destruct (String.eqb _ e);
          [intros E; injection E as <-; reflexivity|]).
  discriminate.
Qed.

(** X10: an element that names no inherited property always gets a number
    as colour, its entry of the colour table or else the default pink, and
    a radius that is a number strictly between 0 and 2, in every style. *)
Theorem ordinary_elements_get_a_colour_and_a_radius
  (e : string) (st : Style) :
  inherited e = false ->
  atom_color e = JS.Num (default 0xff69b4%float (JS.own ATOM_COLORS e)) /\
  (0 <? atom_radius e st)%float = true /\
  (atom_radius e st <? 2)%float = true.
Proof.
  intros Hi. split.
  - unfold atom_color, JS.get. fold (inherited e). rewrite Hi.
    destruct (JS.own ATOM_COLORS e) as [v|] eqn:E; [|reflexivity].
    unfold JS.or_else. now rewrite (own_color_truthy e v E).
  - rewrite (atom_radius_base e st Hi).
    unfold ATOM_RADII. cbn [JS.own].
    repeat (destruct (String.eqb _ e); [destruct st; split; reflexivity|]).
    destruct st; split; reflexivity.
Qed.

(** The theorem of X10 at chlorine, which has a colour and no radius of
    its own. *)
Lemma ordinary_elements_get_a_colour_and_a_radius_witness :
  atom_color "Cl" = JS.Num 0x1ff01f%float /\
  (0 <? atom_radius "Cl" ball_stick)%float = true.
Proof.
  pose proof (ordinary_elements_get_a_colour_and_a_radius
                "Cl" ball_stick eq_refl) as (H1 & H2 & _).
  exact (conj H1 H2).
Defined.

End ViewerFacts.

(** * The network listener of the hook (src/mobile/hooks/useOfflineCache.ts) *)

Module NetworkListener.

Import OfflineCache.

(** What [NetInfo] reports: each flag may be [null] while it is unknown. *)
Record NetInfoState : Type := mkNetInfo
  { isConnected : option bool; isInternetReachable : option bool }.

(** The truthiness of [state.isConnected && state.isInternetReachable]. *)
Definition nowOnline (state : NetInfoState) : bool :=
  match isConnected state, isInternetReachable state with
  | Some true, Some true => true
  | _, _ => false
  end.

Definition syncOnReconnect (options : CacheOptions) : bool :=
  default true (opt_syncOnReconnect options).

Section Listener.

Context {T : Type}.
Variable backend : nat -> Reply.
Variable options : CacheOptions.

Definition setIsOffline (b : bool) : M (T := T) unit :=
  set_hook (fun s => mkState (st_data s) (isLoading s) (isStale s) b (error s)).

(** The listener the hook registers with [NetInfo.addEventListener], as
    the render [r] created it.  The replay is started and not awaited;
    the model runs it to its end before anything else happens. *)
Definition on_network_state (r : Render (T := T)) (state : NetInfoState)
  : M (T := T) unit :=
  let wasOffline := seen_isOffline r in
  bind (setIsOffline (negb (nowOnline state))) (fun _ =>
    if wasOffline && nowOnline state && syncOnReconnect options
    then bind (syncPendingOperations backend) (fun _ => ret tt)
    else ret tt).

End Listener.

End NetworkListener.

(** * Further properties of the offline cache *)

Module CacheFacts.

Import OfflineCache OfflineCacheFacts NetworkListener.

#[local] Open Scope Z_scope.

(** Runs a call and splits on every test it meets. *)
Ltac innermost x :=
  lazymatch x with
  | context [match _ with _ => _ end] => fail
  | context [if _ then _ else _] => fail
  | _ => destruct x eqn:?
  end.

Ltac cases :=
  repeat (fields;
          match goal with
          | |- context [if ?b then _ else _] => innermost b
          | |- context [match ?x with _ => _ end] => innermost x
          end);
  fields.

Section Calls.

Context {T : Type}.
Variable truthy : T -> bool.
Variable fetcher : nat -> Fetched (T := T).
Variable key : string.
Variable options : CacheOptions.

Lemma fetchAndCache_returns (r : Render) (w : World) :
  fst (fetchAndCache truthy fetcher key options r w) = Returned tt.
Proof.
  destruct w as [en pe up cl fc rq hk mt]. run. cases; reflexivity.
Qed.

Lemma loadCachedData_returns (r : Render) (w : World) :
  fst (loadCachedData truthy fetcher key options r w) = Returned tt.
Proof.
  destruct w as [en pe up cl fc rq hk mt]. run. cases; reflexivity.
Qed.

(** X11: the calls of the hook that fetch never reject: [loadCachedData]
    and [refresh] always return, whatever the storage and the fetcher do,
    the failure going to the [error] cell; [clearCache] has no handler and
    rejects exactly when the storage fails. *)
Theorem loading_never_rejects_clearing_may (r : Render) (w : World) :
  fst (loadCachedData truthy fetcher key options r w) = Returned tt /\
  fst (refresh truthy fetcher key options r w) = Returned tt /\
  fst (clearCache key w)
  = if storage_up w then Returned tt else Thrown StorageError.
Proof.
  split; [apply loadCachedData_returns|].
  split; [apply fetchAndCache_returns|].
  destruct w as [en pe up cl fc rq hk mt].
  unfold clearCache, removeItem. run. cases; reflexivity.
Qed.

(** X12: when the storage fails, a read ends with the storage error in
    the [error] cell, loading over and no data, and the fetcher is not
    called. *)
Theorem a_read_without_storage_does_not_fetch (w : World) :
  storage_up w = false ->
  let w' := read truthy fetcher key options w in
  error (hook w') = Some StorageError /\
  isLoading (hook w') = false /\
  st_data (hook w') = None /\
  isStale (hook w') = false /\
  fetcher_calls w' = fetcher_calls w /\
  entries w' = entries w.
Proof.
  intros Hs. destruct w as [en pe up cl fc rq hk mt]. cbn in Hs. subst up.
  run. repeat split.
Qed.

(** X13: a read that finds no entry and whose fetcher rejects ends without
    data, with the error of the fetcher, loading over, and persists
    nothing. *)
Theorem a_miss_with_a_failing_fetcher_is_an_error (w : World) (err : Error) :
  storage_up w = true ->
  entries w !! cacheKey key = None ->
  settled (fetcher (fetcher_calls w)) = inl err ->
  let w' := read truthy fetcher key options w in
  st_data (hook w') = None /\
  isStale (hook w') = false /\
  error (hook w') = Some err /\
  isLoading (hook w') = false /\
  fetcher_calls w' = S (fetcher_calls w) /\
  entries w' = entries w.
Proof.
  intros Hs He Hf. destruct w as [en pe up cl fc rq hk mt].
  cbn in Hs, He, Hf. subst up. run. rewrite He. run. rewrite Hf.
  repeat split.
Qed.

(** X14: [refresh] revalidates whatever the cache holds: on a mounted hook
    with working storage it calls the fetcher once, even over a fresh
    entry, and when the fetcher fulfils it overwrites the entry with the
    new value and the new capture time and shows the value as fresh. *)
Theorem refresh_always_fetches_and_overwrites
  (r : Render) (w : World) (v : T) :
  storage_up w = true ->
  isMounted w = true ->
  settled (fetcher (fetcher_calls w)) = inr v ->
  let w' := snd (refresh truthy fetcher key options r w) in
  fetcher_calls w' = S (fetcher_calls w) /\
  entries w'
  = <[cacheKey key :=
        mkCached v (clock w + elapsed (fetcher (fetcher_calls w)))
                 (ttl options)]> (entries w) /\
  st_data (hook w') = Some v /\
  isStale (hook w') = false /\
  error (hook w') = None /\
  isLoading (hook w') = false.
Proof.
  intros Hs Hm Hf w'. subst w'. unfold refresh.
  rewrite (fetchAndCache_fulfilled truthy fetcher key options r w v Hs Hm Hf).
  repeat split.
Qed.

(** X15: on a mounted hook, a [refresh] whose fetcher rejects keeps what
    there was: the data cell and the stored entries are unchanged and
    loading is over; the error of the fetcher goes to the [error] cell,
    unless the render saw the hook offline with truthy data, in which case
    the data is marked stale and the cell is [null]. *)
Theorem a_failed_refresh_keeps_the_data
  (r : Render) (w : World) (err : Error) :
  isMounted w = true ->
  settled (fetcher (fetcher_calls w)) = inl err ->
  let w' := snd (refresh truthy fetcher key options r w) in
  st_data (hook w') = st_data (hook w) /\
  entries w' = entries w /\
  isLoading (hook w') = false /\
  fetcher_calls w' = S (fetcher_calls w) /\
  (offline_with_data truthy r = false ->
   error (hook w') = Some err /\ isStale (hook w') = isStale (hook w)) /\
  (offline_with_data truthy r = true ->
   error (hook w') = None /\ isStale (hook w') = true).
Proof.
  intros Hm Hf w'. subst w'. unfold refresh.
  rewrite (fetchAndCache_rejected truthy fetcher key options r w err Hm Hf).
  fields. destruct (offline_with_data truthy r); fields;
    repeat split; intros; try discriminate; reflexivity.
Qed.

(** X16: on a mounted hook, when the fetcher fulfils and the storage then
    fails, the fresh value is shown, loading is over and nothing is
    persisted; the storage error goes to the [error] cell beside the fresh
    data, not stale, unless the render saw the hook offline with truthy
    data, in which case the fresh data is marked stale and the cell is
    [null]. *)
Theorem fresh_data_can_come_with_a_storage_error
  (r : Render) (w : World) (v : T) :
  storage_up w = false ->
  isMounted w = true ->
  settled (fetcher (fetcher_calls w)) = inr v ->
  let w' := snd (refresh truthy fetcher key options r w) in
  st_data (hook w') = Some v /\
  isLoading (hook w') = false /\
  fetcher_calls w' = S (fetcher_calls w) /\
  entries w' = entries w /\
  (offline_with_data truthy r = false ->
   error (hook w') = Some StorageError /\ isStale (hook w') = false) /\
  (offline_with_data truthy r = true ->
   error (hook w') = None /\ isStale (hook w') = true).
Proof.
  intros Hs Hm Hf. destruct w as [en pe up cl fc rq hk mt].
  cbn in Hs, Hm, Hf. subst up mt. run. rewrite Hf.
  destruct (offline_with_data truthy r); fields;
    repeat split; intros; try discriminate; reflexivity.
Qed.

(** X17: a fetch on a hook that was unmounted meanwhile still persists the
    value it got, and leaves the data and staleness cells alone. *)
Theorem an_unmounted_hook_still_persists
  (r : Render) (w : World) (v : T) :
  storage_up w = true ->
  isMounted w = false ->
  settled (fetcher (fetcher_calls w)) = inr v ->
  let w' := snd (fetchAndCache truthy fetcher key options r w) in
  entries w' !! cacheKey key
  = Some (mkCached v (clock w + elapsed (fetcher (fetcher_calls w)))
                   (ttl options)) /\
  st_data (hook w') = st_data (hook w) /\
  isStale (hook w') = isStale (hook w).
Proof.
  intros Hs Hm Hf. destruct w as [en pe up cl fc rq hk mt].
  cbn in Hs, Hm, Hf. subst up mt. run. rewrite Hf. fields.
  rewrite lookup_insert_eq. repeat split.
Qed.

(** X18: with stale-while-revalidate switched off, a read that finds an
    entry past its time to live and whose fetcher rejects shows no data at
    all: the expired value is not surfaced, only the error. *)
Theorem without_revalidation_stale_data_is_not_shown
  (w : World) (e : CachedData) (err : Error) :
  storage_up w = true ->
  entries w !! cacheKey key = Some e ->
  cached_ttl e < clock w - timestamp e ->
  settled (fetcher (fetcher_calls w)) = inl err ->
  opt_staleWhileRevalidate options = Some false ->
  let w' := read truthy fetcher key options w in
  st_data (hook w') = None /\
  isStale (hook w') = false /\
  error (hook w') = Some err /\
  isLoading (hook w') = false.
Proof.
  intros Hs He Hexp Hf Hopt. destruct w as [en pe up cl fc rq hk mt].
  cbn in Hs, He, Hexp, Hf. subst up. run. rewrite He. fields.
  assert (E : (cl - timestamp e >? cached_ttl e) = true).
  { rewrite Z.gtb_ltb. now apply Z.ltb_lt. }
  rewrite E. unfold staleWhileRevalidate. rewrite Hopt. cbn. rewrite Hf.
  repeat split.
Qed.

(** X19: with working storage and a fetcher that never rejects, as the
    dashboard passes, every read ends with data, not stale, without error
    and not loading, whatever the store held. *)
Theorem a_fetcher_that_never_rejects_always_gives_data (w : World) :
  storage_up w = true ->
  (forall n, exists v, settled (fetcher n) = inr v) ->
  let w' := read truthy fetcher key options w in
  (exists v, st_data (hook w') = Some v) /\
  isStale (hook w') = false /\
  error (hook w') = None /\
  isLoading (hook w') = false.
Proof.
  intros Hs Hf. destruct w as [en pe up cl fc rq hk mt].
  cbn in Hs. subst up. destruct (Hf fc) as [v Hv]. run.
  destruct (en !! cacheKey key) as [e|]; fields.
  - destruct (cl - timestamp e >? cached_ttl e); fields.
    + destruct (staleWhileRevalidate options); run; rewrite Hv;
        repeat split; eexists; reflexivity.
    + repeat split. eexists; reflexivity.
  - rewrite Hv. repeat split. eexists; reflexivity.
Qed.

Lemma cacheKey_inj (k1 k2 : string) : cacheKey k1 = cacheKey k2 -> k1 = k2.
Proof.
  unfold cacheKey, CACHE_PREFIX. intros H. simpl in H. now injection H.
Qed.

(** X20: the calls of a hook touch no cache entry but the one of their own
    key, and leave the pending queue and the request log alone; two keys
    that differ have entries that differ, so hooks on different keys do
    not disturb each other. *)
Theorem a_hook_touches_only_its_own_entry
  (r : Render) (w : World) (other : string) :
  other <> key ->
  let w1 := snd (loadCachedData truthy fetcher key options r w) in
  let w2 := snd (refresh truthy fetcher key options r w) in
  let w3 := snd (clearCache key w) in
  cacheKey other <> cacheKey key /\
  entries w1 !! cacheKey other = entries w !! cacheKey other /\
  entries w2 !! cacheKey other = entries w !! cacheKey other /\
  entries w3 !! cacheKey other = entries w !! cacheKey other /\
  pending w1 = pending w /\ pending w2 = pending w /\ pending w3 = pending w /\
  requests w1 = requests w /\ requests w2 = requests w /\
  requests w3 = requests w.
Proof.
  intros Hne. assert (Hk : cacheKey key <> cacheKey other).
  { intros E. apply cacheKey_inj in E. congruence. }
  cbv zeta. split; [congruence|].
  destruct w as [en pe up cl fc rq hk mt].
  unfold clearCache, removeItem. run.
  repeat split; cases;
    rewrite ?lookup_insert_ne, ?lookup_delete_ne by exact Hk; reflexivity.
Qed.

(** X21: [clearCache] with working storage removes the entry of the key
    and, on a mounted hook, empties the data cell and the staleness flag;
    the read that follows finds nothing and calls the fetcher, even when
    the cleared entry was fresh. *)
Theorem clearing_forces_the_next_read_to_fetch (w : World) (v : T) :
  storage_up w = true ->
  isMounted w = true ->
  settled (fetcher (fetcher_calls w)) = inr v ->
  let w1 := snd (clearCache key w) in
  let w2 := read truthy fetcher key options w1 in
  entries w1 = delete (cacheKey key) (entries w) /\
  entries w1 !! cacheKey key = None /\
  st_data (hook w1) = None /\
  isStale (hook w1) = false /\
  fetcher_calls w2 = S (fetcher_calls w) /\
  st_data (hook w2) = Some v.
Proof.
  intros Hs Hm Hf. destruct w as [en pe up cl fc rq hk mt].
  cbn in Hs, Hm, Hf. subst up mt.
  unfold clearCache, removeItem. run. rewrite lookup_delete_eq. run.
  rewrite Hf. repeat split.
Qed.

End Calls.

(** ** The pending queue *)

Section Queue.

Context {T : Type}.
Variable backend : nat -> Reply.

Lemma syncPendingOperations_returns (w : World (T := T)) :
  fst (syncPendingOperations backend w) = Returned tt.
Proof.
  unfold syncPendingOperations. fold (replay (T := T) backend).
  unfold try_catch at 1. unfold bind at 1.
  unfold getPending, storage_call.
  destruct (storage_up w) eqn:Hs; [|reflexivity].
  destruct (pending w) as [ops|]; [|reflexivity].
  unfold bind at 1. rewrite replay_all. cbn [app].
  unfold setPending, removePending, storage_call, with_requests.
  destruct (kept backend (length (requests w)) ops);
    cbn [length Nat.ltb Nat.leb]; fields; rewrite Hs; reflexivity.
Qed.

(** X22: [getPendingOperationCount] never rejects and changes nothing; it
    returns the length of the persisted queue, 0 when there is none or
    when the storage fails; with working storage the count is one more
    after [queueOfflineOperation]. *)
Theorem the_count_is_the_length_of_the_queue
  (w : World (T := T)) (op : Operation) (random : string) :
  getPendingOperationCount w
  = (Returned (if storage_up w then length (queue w) else 0%nat), w) /\
  (storage_up w = true ->
   fst (getPendingOperationCount (snd (queueOfflineOperation op random w)))
   = Returned (S (length (queue w)))).
Proof.
  destruct w as [en pe up cl fc rq hk mt]. unfold getPendingOperationCount, queue.
  split.
  - run. destruct up; [|reflexivity]. destruct pe; reflexivity.
  - cbn. intros ->. run.
    destruct pe; cbn; rewrite ?length_app; cbn; do 2 f_equal; lia.
Qed.

(** X23: [queueOfflineOperation] never rejects.  With working storage it
    changes the queue only, adding one operation after those already
    there; when the storage fails the world is left as it was: the
    operation is dropped and the caller is not told. *)
Theorem queueing_never_rejects_and_may_drop
  (w : World (T := T)) (op : Operation) (random : string) :
  let w' := snd (queueOfflineOperation op random w) in
  fst (queueOfflineOperation op random w) = Returned tt /\
  (storage_up w = false -> w' = w) /\
  (storage_up w = true ->
   queue w'
   = queue w ++ [mkPending (pretty (clock w) ++ "_" ++ random) op (clock w)] /\
   entries w' = entries w /\
   hook w' = hook w /\
   requests w' = requests w).
Proof.
  destruct w as [en pe up cl fc rq hk mt]. unfold queue. run.
  destruct up; fields.
  - repeat split; try discriminate.
  - repeat split; discriminate.
Qed.

Lemma syncPendingOperations_frame (w : World (T := T)) :
  let w' := snd (syncPendingOperations backend w) in
  entries w' = entries w /\
  hook w' = hook w /\
  clock w' = clock w /\
  fetcher_calls w' = fetcher_calls w /\
  (pending w = None \/ storage_up w = false -> w' = w).
Proof.
  destruct (storage_up w) eqn:Hs.
  - destruct (pending w) as [ops|] eqn:Hp.
    + rewrite (syncPendingOperations_world backend w ops Hs Hp). fields.
      repeat split. intros [H|H]; discriminate.
    + destruct w as [en pe up cl fc rq hk mt]. cbn in Hs, Hp. subst up pe.
      run. repeat split.
  - destruct w as [en pe up cl fc rq hk mt]. cbn in Hs. subst up.
    run. repeat split.
Qed.


(** X25: a second pass retries what the first one kept and nothing else:
    after two passes the requests sent are those of the queue followed by
    those of the operations the first pass kept, and the queue holds what
    the second pass kept of them. *)
Theorem a_second_pass_retries_what_was_kept
  (w : World (T := T)) (ops : list PendingSyncOperation) :
  storage_up w = true ->
  pending w = Some ops ->
  let base := length (requests w) in
  let w1 := snd (syncPendingOperations backend w) in
  let w2 := snd (syncPendingOperations backend w1) in
  requests w2 = requests w ++ ops ++ kept backend base ops /\
  queue w2
  = kept backend (base + length ops) (kept backend base ops) /\
  sublist (queue w2) (queue w1).
Proof.
  intros Hs Hp base w1 w2.
  assert (E1 : w1 = mkWorld (entries w)
                      (match kept backend base ops with
                       | [] => None
                       | (_ :: _) as remaining => Some remaining
                       end)
                      true (clock w) (fetcher_calls w) (requests w ++ ops)
                      (hook w) (isMounted w))
    by apply (syncPendingOperations_world backend w ops Hs Hp).
  subst w2. rewrite E1. clear E1 w1.
  destruct (kept backend base ops) as [|o rest] eqn:Ek.
  - run. rewrite app_nil_r. repeat split. constructor.
  - match goal with
    | |- context [syncPendingOperations backend ?x] =>
        rewrite (syncPendingOperations_world backend x (o :: rest)
                   eq_refl eq_refl)
    end.
    unfold queue. fields. rewrite length_app. fold base.
    split; [now rewrite <- app_assoc|].
    destruct (kept backend (base + length ops) (o :: rest)) eqn:Ek2;
      cbn [default from_option id]; (split; [reflexivity|]).
    + apply sublist_nil_l.
    + rewrite <- Ek2. apply kept_sublist.
Qed.

(** X26: the network listener sets [isOffline] to true unless the state
    reports both connected and reachable, an unknown flag counting as
    offline; it replays the pending queue only when the render that
    created it saw the hook offline, the state is online and
    [syncOnReconnect] is not switched off, and then sends the queue as
    [syncPendingOperations] does; in every other case no request is
    sent. *)
Theorem the_listener_replays_on_reconnection_only
  (options : CacheOptions) (r : Render (T := T)) (state : NetInfoState)
  (w : World (T := T)) :
  let w' := snd (on_network_state backend options r state w) in
  let replays :=
    seen_isOffline r && nowOnline state && syncOnReconnect options in
  isOffline (hook w') = negb (nowOnline state) /\
  (isConnected state = None \/ isInternetReachable state = None ->
   isOffline (hook w') = true) /\
  (replays = false -> requests w' = requests w /\ pending w' = pending w) /\
  (replays = true -> storage_up w = true ->
   forall ops, pending w = Some ops ->
     requests w' = requests w ++ ops /\
     queue w' = kept backend (length (requests w)) ops).
Proof.
  cbv zeta. unfold on_network_state.
  destruct (seen_isOffline r && nowOnline state && syncOnReconnect options)
    eqn:Hrep.
  - unfold bind, setIsOffline, set_hook, modify, ret. fields.
    match goal with
    | |- context [syncPendingOperations backend ?x] => set (w0 := x)
    end.
    pose proof (syncPendingOperations_returns w0) as Hret.
    pose proof (syncPendingOperations_frame w0) as Hframe.
    cbv zeta in Hframe. destruct Hframe as (_ & Hh & _).
    assert (Hw : forall ops, storage_up w = true -> pending w = Some ops ->
              snd (syncPendingOperations backend w0)
              = mkWorld (entries w)
                  (match kept backend (length (requests w)) ops with
                   | [] => None
                   | (_ :: _) as remaining => Some remaining
                   end)
                  true (clock w) (fetcher_calls w) (requests w ++ ops)
                  (hook w0) (isMounted w)).
    { intros ops Hs Hp.
      apply (syncPendingOperations_world backend w0 ops Hs Hp). }
    destruct (syncPendingOperations backend w0) as [res w1].
    cbn [fst snd] in *. subst res. fields. rewrite Hh. subst w0. fields.
    split; [reflexivity|]. split.
    { intros [H|H]; unfold nowOnline; rewrite H; [reflexivity|].
      destruct (isConnected state) as [[]|]; reflexivity. }
    split; [discriminate|].
    intros _ Hs ops Hp. rewrite (Hw ops Hs Hp). unfold queue. fields.
    split; [reflexivity|].
    destruct (kept backend (length (requests w)) ops); reflexivity.
  - unfold bind, setIsOffline, set_hook, modify, ret. fields.
    split; [reflexivity|]. split.
    { intros [H|H]; unfold nowOnline; rewrite H; [reflexivity|].
      destruct (isConnected state) as [[]|]; reflexivity. }
    split; [intros _; split; reflexivity | discriminate].
Qed.

End Queue.

(** ** The properties at the dashboard's cache *)

Definition activity_options : CacheOptions := mkOptions (Some 60000) None None.

Definition text_truthy (s : string) : bool := JS.truthy_string s.

Definition answers (n : nat) : Fetched (T := string) :=
  mkFetched 30 (inr "activity v2"%string).

Definition times_out (n : nat) : Fetched (T := string) :=
  mkFetched 30 (inl (FetchError "timeout")).

Definition showing (d : string) : HookState :=
  mkState (Some d) false false false None.

(** Worlds at time 1000: nothing stored; an entry captured at 900 with a
    minute to live; an entry captured at 0 with half a second to live. *)
Definition cold : World (T := string) :=
  mkWorld ∅ None true 1000 0 [] initial_state true.

Definition warm_with (up mounted : bool) : World (T := string) :=
  mkWorld {[ "offline_cache_recent_activity"%string
               := mkCached "activity v1"%string 900 60000 ]}
          None up 1000 0 [] (showing "activity v1") mounted.

Definition aged : World (T := string) :=
  mkWorld {[ "offline_cache_recent_activity"%string
               := mkCached "activity v1"%string 0 500 ]}
          None true 1000 0 [] initial_state true.

(** The theorem of X12 at a store that fails. *)
Lemma a_read_without_storage_does_not_fetch_witness :
  let w' := read text_truthy answers "recent_activity" activity_options
                 (warm_with false true) in
  error (hook w') = Some StorageError /\ fetcher_calls w' = 0%nat.
Proof.
  pose proof (a_read_without_storage_does_not_fetch
                text_truthy answers "recent_activity" activity_options
                (warm_with false true) eq_refl) as (H1 & _ & _ & _ & H5 & _).
  exact (conj H1 H5).
Defined.

(** The theorem of X13 at the empty store. *)
Lemma a_miss_with_a_failing_fetcher_is_an_error_witness :
  let w' := read text_truthy times_out "recent_activity" activity_options
                 cold in
  st_data (hook w') = None /\ error (hook w') = Some (FetchError "timeout").
Proof.
  pose proof (a_miss_with_a_failing_fetcher_is_an_error
                text_truthy times_out "recent_activity" activity_options
                cold (FetchError "timeout") eq_refl eq_refl eq_refl)
    as (H1 & _ & H3 & _).
  exact (conj H1 H3).
Defined.

(** The theorem of X14 over a fresh entry. *)
Lemma refresh_always_fetches_and_overwrites_witness :
  let w' := snd (refresh text_truthy answers "recent_activity"
                   activity_options (render_of (showing "activity v1"))
                   (warm_with true true)) in
  fetcher_calls w' = 1%nat /\
  entries w' !! "offline_cache_recent_activity"%string
  = Some (mkCached "activity v2"%string 1030 60000).
Proof.
  pose proof (refresh_always_fetches_and_overwrites
                text_truthy answers "recent_activity" activity_options
                (render_of (showing "activity v1")) (warm_with true true)
                "activity v2"%string eq_refl eq_refl eq_refl)
    as (H1 & H2 & _).
  split; [exact H1|]. cbv zeta. rewrite H2. reflexivity.
Defined.

(** The theorem of X15 over a fresh entry. *)
Lemma a_failed_refresh_keeps_the_data_witness :
  let w' := snd (refresh text_truthy times_out "recent_activity"
                   activity_options (render_of (showing "activity v1"))
                   (warm_with true true)) in
  st_data (hook w') = Some "activity v1"%string /\
  error (hook w') = Some (FetchError "timeout").
Proof.
  pose proof (a_failed_refresh_keeps_the_data
                text_truthy times_out "recent_activity" activity_options
                (render_of (showing "activity v1")) (warm_with true true)
                (FetchError "timeout") eq_refl eq_refl)
    as (H1 & _ & _ & _ & H5 & _).
  exact (conj H1 (proj1 (H5 eq_refl))).
Defined.

(** The theorem of X16 at a store that fails, from a render that saw the
    hook online and from one that saw it offline. *)
Lemma fresh_data_can_come_with_a_storage_error_witness :
  let w' := snd (refresh text_truthy answers "recent_activity"
                   activity_options (render_of (showing "activity v1"))
                   (warm_with false true)) in
  let w'' := snd (refresh text_truthy answers "recent_activity"
                    activity_options (mkRender true (Some "activity v1"%string))
                    (warm_with false true)) in
  (st_data (hook w') = Some "activity v2"%string /\
   error (hook w') = Some StorageError /\ isStale (hook w') = false) /\
  (st_data (hook w'') = Some "activity v2"%string /\
   error (hook w'') = None /\ isStale (hook w'') = true).
Proof.
  pose proof (fresh_data_can_come_with_a_storage_error
                text_truthy answers "recent_activity" activity_options
                (render_of (showing "activity v1")) (warm_with false true)
                "activity v2"%string eq_refl eq_refl eq_refl)
    as (H1 & _ & _ & _ & H5 & _).
  pose proof (fresh_data_can_come_with_a_storage_error
                text_truthy answers "recent_activity" activity_options
                (mkRender true (Some "activity v1"%string))
                (warm_with false true)
                "activity v2"%string eq_refl eq_refl eq_refl)
    as (G1 & _ & _ & _ & _ & G6).
  exact (conj (conj H1 (H5 eq_refl)) (conj G1 (G6 eq_refl))).
Defined.

(** The theorem of X17 at a hook that was unmounted. *)
Lemma an_unmounted_hook_still_persists_witness :
  let w' := snd (fetchAndCache text_truthy answers "recent_activity"
                   activity_options (render_of (showing "activity v1"))
                   (warm_with true false)) in
  entries w' !! "offline_cache_recent_activity"%string
  = Some (mkCached "activity v2"%string 1030 60000) /\
  st_data (hook w') = Some "activity v1"%string.
Proof.
  pose proof (an_unmounted_hook_still_persists
                text_truthy answers "recent_activity" activity_options
                (render_of (showing "activity v1")) (warm_with true false)
                "activity v2"%string eq_refl eq_refl eq_refl)
    as (H1 & H2 & _).
  exact (conj H1 H2).
Defined.

(** The theorem of X18 at an expired entry. *)
Lemma without_revalidation_stale_data_is_not_shown_witness :
  let w' := read text_truthy times_out "recent_activity"
                 (mkOptions None (Some false) None) aged in
  st_data (hook w') = None /\ error (hook w') = Some (FetchError "timeout").
Proof.
  pose proof (without_revalidation_stale_data_is_not_shown
                text_truthy times_out "recent_activity"
                (mkOptions None (Some false) None) aged
                (mkCached "activity v1"%string 0 500) (FetchError "timeout")
                eq_refl eq_refl eq_refl eq_refl eq_refl)
    as (H1 & _ & H3 & _).
  exact (conj H1 H3).
Defined.

(** The theorem of X19 at an expired entry. *)
Lemma a_fetcher_that_never_rejects_always_gives_data_witness :
  let w' := read text_truthy answers "recent_activity" activity_options aged in
  (exists v, st_data (hook w') = Some v) /\ error (hook w') = None.
Proof.
  pose proof (a_fetcher_that_never_rejects_always_gives_data
                text_truthy answers "recent_activity" activity_options aged
                eq_refl
                (fun n => ex_intro _ "activity v2"%string eq_refl))
    as (H1 & _ & H3 & _).
  exact (conj H1 H3).
Defined.

(** The theorem of X20 at a second key. *)
Lemma a_hook_touches_only_its_own_entry_witness :
  let w' := snd (refresh text_truthy answers "profile" activity_options
                   (render_of (showing "activity v1")) (warm_with true true)) in
  entries w' !! "offline_cache_recent_activity"%string
  = Some (mkCached "activity v1"%string 900 60000).
Proof.
  assert (Hne : "recent_activity"%string <> "profile"%string) by discriminate.
  pose proof (a_hook_touches_only_its_own_entry
                text_truthy answers "profile" activity_options
                (render_of (showing "activity v1")) (warm_with true true)
                "recent_activity" Hne) as H.
  cbv zeta in H. destruct H as (_ & _ & H3 & _).
  exact (eq_trans H3 eq_refl).
Defined.

(** The theorem of X21 over a fresh entry. *)
Lemma clearing_forces_the_next_read_to_fetch_witness :
  let w1 := snd (clearCache "recent_activity" (warm_with true true)) in
  let w2 := read text_truthy answers "recent_activity" activity_options w1 in
  st_data (hook w1) = None /\
  fetcher_calls w2 = 1%nat /\
  st_data (hook w2) = Some "activity v2"%string.
Proof.
  pose proof (clearing_forces_the_next_read_to_fetch
                text_truthy answers "recent_activity" activity_options
                (warm_with true true) "activity v2"%string
                eq_refl eq_refl eq_refl)
    as (_ & _ & H3 & _ & H5 & H6).
  exact (conj H3 (conj H5 H6)).
Defined.

(** The theorem of X25 at three queued operations and a flaky network. *)
Lemma a_second_pass_retries_what_was_kept_witness :
  let w1 := snd (syncPendingOperations flaky three_pending) in
  let w2 := snd (syncPendingOperations flaky w1) in
  requests w2 = [op_a; op_b; op_c; op_a; op_c] /\
  queue w2 = [op_a; op_c].
Proof.
  pose proof (a_second_pass_retries_what_was_kept
                flaky three_pending [op_a; op_b; op_c] eq_refl eq_refl)
    as (H1 & H2 & _).
  exact (conj H1 H2).
Defined.

(** The theorem of X26 at a reconnection with three queued operations. *)
Lemma the_listener_replays_on_reconnection_only_witness :
  let w' := snd (on_network_state flaky no_options (mkRender true None)
                   (mkNetInfo (Some true) (Some true)) three_pending) in
  isOffline (hook w') = false /\
  requests w' = [op_a; op_b; op_c] /\
  queue w' = [op_a; op_c].
Proof.
  pose proof (the_listener_replays_on_reconnection_only
                flaky no_options (mkRender true None)
                (mkNetInfo (Some true) (Some true)) three_pending)
    as (H1 & _ & _ & H4).
  exact (conj H1 (H4 eq_refl eq_refl [op_a; op_b; op_c] eq_refl)).
Defined.

(** The theorem of X22 at a queue of three operations. *)
Lemma the_count_is_the_length_of_the_queue_witness :
  fst (getPendingOperationCount three_pending) = Returned 3%nat /\
  fst (getPendingOperationCount
         (snd (queueOfflineOperation (mkOperation POST "/targets" "{}") "k3x"
                 three_pending)))
  = Returned 4%nat.
Proof.
  pose proof (the_count_is_the_length_of_the_queue
                three_pending (mkOperation POST "/targets" "{}") "k3x")
    as (H1 & H2).
  split; [now rewrite H1 | exact (H2 eq_refl)].
Defined.

(** The theorem of X23 at a store that fails. *)
Lemma queueing_never_rejects_and_may_drop_witness :
  snd (queueOfflineOperation (mkOperation POST "/targets" "{}") "k3x"
         (warm_with false true))
  = warm_with false true.
Proof.
  exact (proj1 (proj2 (queueing_never_rejects_and_may_drop
                         (warm_with false true)
                         (mkOperation POST "/targets" "{}") "k3x"))
               eq_refl).
Defined.


End CacheFacts.
